(** * DNServer: the resolution decision engine of [dnsserver.py]

    A shallow embedding of the rule matcher, the time-window check, the
    resolver [MiResolver.resolve] and the administrative routes that edit the
    rule list, followed by the properties of the specification that were
    checked against them.

    Conventions of the embedding.
    - Python [str] values are Rocq strings holding the UTF-8 bytes of the
      text.  [strip()] knows all the white space of Unicode; [upper()] knows
      the ASCII letters and every other character whose upper case is spelled
      in ASCII letters, which is what a comparison with an ASCII word needs;
      [strptime], [int] and the sample pattern matcher read ASCII text.
    - Python [int] is [Z] (time fields) or [nat] (hit counters, which only
      count up from zero).
    - The four module globals ([maintenance_mode], [global_bloqueos], [logs],
      [estadisticas]) are the fields of one explicit [State] record that every
      operation takes and returns.
    - An exception is a value: [Raises e] carries the text of [str(e)].
    - What the outside world answers during one call (the clock and the
      system resolver) is an explicit [World] argument; one call observes one
      instant of the clock.
    - The two library functions the code relies on, [fnmatch.fnmatch] and the
      constructor of dnslib's [A] record, are parameters of the development;
      the instance [Concrete.lib] is a concrete reading of them, used to run the
      code on examples. *)

From Stdlib Require Import ZArith Ascii String.
From stdpp Require Import gmap strings list pretty.

Local Open Scope string_scope.

(** ** Python string methods *)

Module Str.

Definition between (lo hi : N) (c : ascii) : bool :=
  let n := N_of_ascii c in (N.leb lo n && N.leb n hi)%bool.

(** [str.isspace] on one character: TAB..CR, FS..US and the space. *)
Definition isspace (c : ascii) : bool :=
  (between 9 13 c || between 28 32 c)%bool.

Definition isdigit (c : ascii) : bool := between 48 57 c.

Definition islower (c : ascii) : bool := between 97 122 c.

Definition upper_char (c : ascii) : ascii :=
  if islower c then ascii_of_N (N_of_ascii c - 32) else c.

Definition byte (c : ascii) (n : N) : bool := N.eqb (N_of_ascii c) n.

(** The upper case of the ligatures U+FB00 to U+FB06, which are encoded as
    EF AC 80 to EF AC 86, by the last byte. *)
Definition ligature (c : ascii) : option string :=
  if byte c 128 then Some "FF"
  else if byte c 129 then Some "FI"
  else if byte c 130 then Some "FL"
  else if byte c 131 then Some "FFI"
  else if byte c 132 then Some "FFL"
  else if byte c 133 then Some "ST"
  else if byte c 134 then Some "ST"
  else None.

(** [s.upper()].  Beside the ASCII letters, the characters whose upper case
    is made of ASCII letters are U+0131 (C4 B1, to I), U+017F (C5 BF, to S),
    U+00DF (C3 9F, to SS) and the ligatures; any other character outside
    ASCII is left as it is, and neither it nor its upper case is ASCII, so
    the result equals an ASCII word exactly when [s.upper()] does. *)
Fixpoint upper (s : string) : string :=
  match s with
  | EmptyString => EmptyString
  | String a s1 =>
      match s1 with
      | EmptyString => String (upper_char a) EmptyString
      | String b s2 =>
          if (byte a 196 && byte b 177)%bool then String "I" (upper s2)
          else if (byte a 197 && byte b 191)%bool then String "S" (upper s2)
          else if (byte a 195 && byte b 159)%bool then
            String "S" (String "S" (upper s2))
          else if (byte a 239 && byte b 172)%bool then
            match s2 with
            | EmptyString => String (upper_char a) (upper s1)
            | String c s3 =>
                match ligature c with
                | Some w => w ++ upper s3
                | None => String (upper_char a) (upper s1)
                end
            end
          else String (upper_char a) (upper s1)
      end
  end.

(** [s.lstrip(chars)]: drop leading characters while they are in the set. *)
Fixpoint lstrip (p : ascii -> bool) (s : string) : string :=
  match s with
  | EmptyString => EmptyString
  | String c s' => if p c then lstrip p s' else s
  end.

(** [s.rstrip(chars)]: drop trailing characters while they are in the set. *)
Fixpoint rstrip (p : ascii -> bool) (s : string) : string :=
  match s with
  | EmptyString => EmptyString
  | String c s' =>
      match rstrip p s' with
      | EmptyString => if p c then EmptyString else String c EmptyString
      | r => String c r
      end
  end.

(** The number of bytes of the white-space character [s] starts with, 0
    when it starts with none.  White space is what [str.isspace] says: the
    ASCII characters above, U+0085 and U+00A0 (C2 85, C2 A0), U+1680
    (E1 9A 80), U+2000 to U+200A, U+2028, U+2029 and U+202F (E2 80 ..),
    U+205F (E2 81 9F) and U+3000 (E3 80 80). *)
Definition space_width (s : string) : nat :=
  match s with
  | EmptyString => 0
  | String a r =>
      if isspace a then 1
      else
        match r with
        | EmptyString => 0
        | String b r' =>
            if (byte a 194 && (byte b 133 || byte b 160))%bool then 2
            else
              match r' with
              | EmptyString => 0
              | String c _ =>
                  if ((byte a 225 && byte b 154 && byte c 128)
                      || (byte a 226 && byte b 128
                          && (between 128 138 c || byte c 168 || byte c 169
                              || byte c 175))
                      || (byte a 226 && byte b 129 && byte c 159)
                      || (byte a 227 && byte b 128 && byte c 128))%bool
                  then 3 else 0
              end
        end
  end.

(** Drop [skip] bytes, then the white-space characters that follow. *)
Fixpoint drop_space (skip : nat) (s : string) : string :=
  match s with
  | EmptyString => EmptyString
  | String a r =>
      match skip with
      | S k => drop_space k r
      | O =>
          match space_width s with
          | O => s
          | S k => drop_space k r
          end
      end
  end.

(** [s.lstrip()] *)
Definition lstrip_space (s : string) : string := drop_space 0 s.

(** [s.rstrip()]: the text up to where only white space follows. *)
Fixpoint rstrip_space (s : string) : string :=
  match s with
  | EmptyString => EmptyString
  | String a r =>
      match lstrip_space s with
      | EmptyString => EmptyString
      | _ => String a (rstrip_space r)
      end
  end.

(** [s.strip()]: white space removed at both ends. *)
Definition strip (s : string) : string := rstrip_space (lstrip_space s).

Definition is_dot (c : ascii) : bool := Ascii.eqb c ".".

(** [s.rstrip('.')] *)
Definition rstrip_dots (s : string) : string := rstrip is_dot s.

(** [s.endswith('.')] *)
Fixpoint endswith_dot (s : string) : bool :=
  match s with
  | EmptyString => false
  | String c EmptyString => is_dot c
  | String _ s' => endswith_dot s'
  end.

(** Truth value of a string: [bool(s)]. *)
Definition nonempty (s : string) : bool :=
  match s with EmptyString => false | _ => true end.

(** [n] copies of the separator. *)
Fixpoint dots (n : nat) : string :=
  match n with O => EmptyString | S k => String "." (dots k) end.

End Str.

(** ** Time of day

    [datetime.time] values are compared field by field: hour, minute, second,
    microsecond. *)

Record time := mk_time { hour : Z; minute : Z; second : Z; microsecond : Z }.

Arguments mk_time (_ _ _ _)%_Z.

Definition time_cmp (a b : time) : comparison :=
  match Z.compare (hour a) (hour b) with
  | Eq => match Z.compare (minute a) (minute b) with
          | Eq => match Z.compare (second a) (second b) with
                  | Eq => Z.compare (microsecond a) (microsecond b)
                  | c => c
                  end
          | c => c
          end
  | c => c
  end.

(** [a <= b] on [datetime.time]. *)
Definition time_le (a b : time) : bool :=
  match time_cmp a b with Gt => false | _ => true end.

(** ** [datetime.strptime(s, '%H:%M')]

    The format compiles to the regular expression
    [(?P<H>2[0-3]|[0-1]\d|\d):(?P<M>[0-5]\d|\d)]; it is matched at the start of
    the string and the match must cover the whole string.  [None] stands for
    the [ValueError] of a string that does not match or has data left. *)

Module Strptime.

Local Open Scope Z_scope.

Definition digit (c : ascii) : Z := Z.of_N (N_of_ascii c) - 48.

(** The alternatives of the hour group, in the order the matcher tries them,
    each with the text that follows it. *)
Definition re_H (s : string) : list (Z * string) :=
  (match s with
   | String c (String d r) =>
       if (Ascii.eqb c "2" && Str.between 48 51 d)%bool
       then [(20 + digit d, r)] else []
   | _ => []
   end) ++
  (match s with
   | String c (String d r) =>
       if (Str.between 48 49 c && Str.isdigit d)%bool
       then [(10 * digit c + digit d, r)] else []
   | _ => []
   end) ++
  (match s with
   | String c r => if Str.isdigit c then [(digit c, r)] else []
   | _ => []
   end).

(** The alternatives of the minute group. *)
Definition re_M (s : string) : list (Z * string) :=
  (match s with
   | String c (String d r) =>
       if (Str.between 48 53 c && Str.isdigit d)%bool
       then [(10 * digit c + digit d, r)] else []
   | _ => []
   end) ++
  (match s with
   | String c r => if Str.isdigit c then [(digit c, r)] else []
   | _ => []
   end).

(** All the ways the whole expression matches a prefix, first match first. *)
Definition matches (s : string) : list (Z * Z * string) :=
  h ← re_H s;
  match h.2 with
  | String ":" r => m ← re_M r; [(h.1, m.1, m.2)]
  | _ => []
  end.

Definition parse_HM (s : string) : option time :=
  match matches s with
  | [] => None
  | (h, m, rest) :: _ =>
      match rest with
      | EmptyString => Some (mk_time h m 0 0)
      | _ => None
      end
  end.

End Strptime.

(** ** [dentro_de_franja]

    The clock read on the first line is the argument [now]. *)

Definition dentro_de_franja (start_str end_str : string) (now : time) : bool :=
  match Strptime.parse_HM start_str with
  | None => true
  | Some start =>
      match Strptime.parse_HM end_str with
      | None => true
      | Some end_ =>
          if time_le start end_
          then (time_le start now && time_le now end_)%bool
          else (time_le start now || time_le now end_)%bool
      end
  end.

(** The time-window check as the specification words it. *)
Definition isActive_spec (startStr endStr : string) (now : time) : bool :=
  if (negb (Str.nonempty startStr) || negb (Str.nonempty endStr))%bool then true
  else
    match Strptime.parse_HM startStr, Strptime.parse_HM endStr with
    | Some s, Some e =>
        if time_le s e
        then (time_le s now && time_le now e)%bool
        else (time_le s now || time_le now e)%bool
    | _, _ => true
    end.

(** ** Exceptions and the libraries the code calls *)

Inductive result (T : Type) : Type :=
| Ok (v : T)
| Raise (e : string).

Arguments Ok {T} v.
Arguments Raise {T} e.

Class Libraries := {
  (** [fnmatch.fnmatch(name, pat)] *)
  fnmatch : string -> string -> bool;
  (** [dnslib.A(data)]: the address it holds, or the exception it raises *)
  dns_A : string -> result (list Z)
}.

(** ** [matches_pattern] *)

Definition matches_pattern {L : Libraries} (name pattern : string) : bool :=
  fnmatch (Str.rstrip_dots name) (Str.rstrip_dots pattern).

(** The matcher as the specification words it: one trailing separator is
    stripped from each input. *)
Definition strip_one_dot (s : string) : string :=
  if Str.endswith_dot s then String.substring 0 (String.length s - 1) s else s.

Definition matches_spec {L : Libraries} (domainName pattern : string) : bool :=
  fnmatch (strip_one_dot domainName) (strip_one_dot pattern).

(** ** Data model *)

(** One entry of [global_bloqueos]: a dictionary that has the keys
    ['pattern'] and ['ip'] with strings as values, as [add_block] stores it,
    and whose keys ['start'], ['end'] and ['enabled'] are read with [.get] and
    may be absent.  A dictionary without ['pattern'] or ['ip'], or with
    another kind of value there, makes lines 90-91 raise and is not a
    [Rule]. *)
Record Rule := {
  pattern : string;
  ip : string;
  start : option string;
  end_ : option string;
  enabled : option bool
}.

Module Dns.

Inductive RCODE := NOERROR | REFUSED.
Inductive QTYPE := QA | QTXT.
Inductive RD := TXT (text : string) | A (data : list Z).

Record RR := { rname : string; rtype : QTYPE; rdata : RD; ttl : Z }.

(** The part of a [DNSRecord] reply the resolver decides: the response code
    of the header and the answer section. *)
Record Reply := { rcode : RCODE; rr : list RR }.

(** [request.reply()] *)
Definition reply : Reply := {| rcode := NOERROR; rr := [] |}.

Definition add_answer (r : Reply) (x : RR) : Reply :=
  {| rcode := rcode r; rr := (rr r ++ [x])%list |}.

Definition set_rcode (r : Reply) (c : RCODE) : Reply :=
  {| rcode := c; rr := rr r |}.

End Dns.

(** The parsed query: [str(request.q.qname)] and [QTYPE[request.q.qtype]]. *)
Record Request := { qname : string; qtype : string }.

(** [handler.client_address[0]], when the handler has the attribute. *)
Record Handler := { client_address : option string }.

Record LogEntry := { ts : string; client : string; query : string; action : string }.

Record State := {
  maintenance_mode : bool;
  global_bloqueos : list Rule;
  logs : list LogEntry;
  estadisticas : gmap string nat
}.

(** What the environment answers during one call of [resolve]. *)
Record World := {
  (** [datetime.now().strftime("%Y-%m-%d %H:%M:%S")] *)
  world_ts : string;
  (** [datetime.now().time()] *)
  world_now : time;
  (** [socket.gethostbyname(host)] *)
  gethostbyname : string -> result string
}.

Inductive outcome :=
| Returns (reply : Dns.Reply)
| Raises (e : string).

Definition LOG_LIMIT : nat := 100.

Definition MAINTENANCE_TEXT : string := "PabloDNS: Estamos en mantenimiento".

(** ** [MiResolver.resolve] *)

(** Lines 115-117: append, then [del logs[:-LOG_LIMIT]] when too long. *)
Definition log_append (logs : list LogEntry) (e : LogEntry) : list LogEntry :=
  let logs := (logs ++ [e])%list in
  if (LOG_LIMIT <? length logs)%nat then drop (length logs - LOG_LIMIT) logs else logs.

(** [estadisticas[pat] = estadisticas.get(pat, 0) + 1] *)
Definition count_hit (pat : string) (est : gmap string nat) : gmap string nat :=
  <[pat := default 0 (est !! pat) + 1]> est.

(** How the [for] loop over the rules ends. *)
Inductive loop_exit :=
| Break (est : gmap string nat) (reply : Dns.Reply) (action : string)
| Raised (est : gmap string nat) (e : string)
| Exhausted.

Fixpoint for_item {L : Libraries} (items : list Rule) (domain : string) (now : time)
    (est : gmap string nat) : loop_exit :=
  match items with
  | [] => Exhausted
  | item :: rest =>
      if negb (default true (enabled item)) then for_item rest domain now est
      else
        let pat := pattern item in
        let ip_redir := Str.strip (ip item) in
        let start := default EmptyString (start item) in
        let end_ := default EmptyString (end_ item) in
        if matches_pattern domain pat then
          if (Str.nonempty start && Str.nonempty end_
              && negb (dentro_de_franja start end_ now))%bool
          then for_item rest domain now est
          else
            let est := count_hit pat est in
            if String.eqb (Str.upper ip_redir) "REFUSED" then
              Break est (Dns.set_rcode Dns.reply Dns.REFUSED) ("refused @ " ++ pat)
            else
              match dns_A ip_redir with
              | Raise e => Raised est e
              | Ok a =>
                  Break est
                    (Dns.add_answer Dns.reply
                       {| Dns.rname := domain; Dns.rtype := Dns.QA;
                          Dns.rdata := Dns.A a; Dns.ttl := 60 |})
                    ("redirect to " ++ ip_redir ++ " @ " ++ pat)
              end
        else for_item rest domain now est
  end.

(** The [else] branch of the loop, lines 106-113. *)
Definition upstream {L : Libraries} (w : World) (domain : string) : Dns.Reply * string :=
  match gethostbyname w (Str.rstrip_dots domain) with
  | Raise e => (Dns.reply, "error " ++ e)
  | Ok real_ip =>
      match dns_A real_ip with
      | Raise e => (Dns.reply, "error " ++ e)
      | Ok a =>
          (Dns.add_answer Dns.reply
             {| Dns.rname := domain; Dns.rtype := Dns.QA;
                Dns.rdata := Dns.A a; Dns.ttl := 60 |},
           "resolved external " ++ real_ip)
      end
  end.

Definition maintenance_reply (domain : string) : Dns.Reply :=
  Dns.add_answer Dns.reply
    {| Dns.rname := domain; Dns.rtype := Dns.QTXT;
       Dns.rdata := Dns.TXT MAINTENANCE_TEXT; Dns.ttl := 60 |}.

Definition resolve {L : Libraries} (st : State) (w : World) (request : Request)
    (handler : Handler) : State * outcome :=
  let ts := world_ts w in
  let client := default "unknown" (client_address handler) in
  let domain := qname request in
  let finish est reply action :=
    ({| maintenance_mode := maintenance_mode st;
        global_bloqueos := global_bloqueos st;
        logs := log_append (logs st)
                  {| ts := ts; client := client;
                     query := domain ++ " (" ++ qtype request ++ ")";
                     action := action |};
        estadisticas := est |},
     Returns reply) in
  if maintenance_mode st then
    finish (estadisticas st) (maintenance_reply domain) "maintenance mode"
  else
    match for_item (global_bloqueos st) domain (world_now w) (estadisticas st) with
    | Break est reply action => finish est reply action
    | Raised est e =>
        ({| maintenance_mode := maintenance_mode st;
            global_bloqueos := global_bloqueos st;
            logs := logs st;
            estadisticas := est |},
         Raises e)
    | Exhausted =>
        let '(reply, action) := upstream w domain in
        finish (estadisticas st) reply action
    end.

(** ** Administrative routes *)

Definition set_bloqueos (st : State) (l : list Rule) : State :=
  {| maintenance_mode := maintenance_mode st;
     global_bloqueos := l;
     logs := logs st;
     estadisticas := estadisticas st |}.

(** The fields of the form posted to [/add]; the two time inputs default to
    ["00:00"] and ["23:59"]. *)
Record AddForm := {
  form_pattern : string;
  form_ip : string;
  form_start : option string;
  form_end : option string
}.

Definition add_block (st : State) (form : AddForm) : State :=
  let pat := Str.strip (form_pattern form) in
  let ip := Str.strip (form_ip form) in
  let start := default "00:00" (form_start form) in
  let end_ := default "23:59" (form_end form) in
  let pat := if negb (Str.endswith_dot pat) then pat ++ "." else pat in
  set_bloqueos st
    (global_bloqueos st ++
     [{| pattern := pat; ip := ip; start := Some start; end_ := Some end_;
         enabled := Some true |}])%list.

(** [pat] is [request.args.get('pattern')]: [None] when the argument is
    missing, and then equal to no stored pattern. *)
Definition remove_block (st : State) (pat : option string) : State :=
  set_bloqueos st
    (filter (fun i => Some (pattern i) <> pat) (global_bloqueos st)).

Definition flip_enabled (item : Rule) : Rule :=
  {| pattern := pattern item; ip := ip item; start := start item;
     end_ := end_ item; enabled := Some (negb (default true (enabled item))) |}.

Fixpoint toggle_first (pat : option string) (items : list Rule) : list Rule :=
  match items with
  | [] => []
  | item :: rest =>
      if decide (Some (pattern item) = pat) then flip_enabled item :: rest
      else item :: toggle_first pat rest
  end.

Definition toggle_rule (st : State) (pat : option string) : State :=
  set_bloqueos st (toggle_first pat (global_bloqueos st)).

Definition toggle_maintenance (st : State) : State :=
  {| maintenance_mode := negb (maintenance_mode st);
     global_bloqueos := global_bloqueos st;
     logs := logs st;
     estadisticas := estadisticas st |}.

Definition reset_stats (st : State) : State :=
  {| maintenance_mode := maintenance_mode st;
     global_bloqueos := global_bloqueos st;
     logs := logs st;
     estadisticas := ∅ |}.

(** ** The server as a transition system

    The process starts with the rules and the flag of the configuration file,
    an empty log and no counters; afterwards queries and administrative
    requests arrive in some order. *)

Definition startup (bloqueos : list Rule) (maintenance : bool) : State :=
  {| maintenance_mode := maintenance;
     global_bloqueos := bloqueos;
     logs := [];
     estadisticas := ∅ |}.

Inductive Op :=
| Resolve (w : World) (request : Request) (handler : Handler)
| AddBlock (form : AddForm)
| RemoveBlock (pat : option string)
| ToggleRule (pat : option string)
| ToggleMaintenance
| ResetStats.

Definition step {L : Libraries} (st : State) (op : Op) : State :=
  match op with
  | Resolve w request handler => (resolve st w request handler).1
  | AddBlock form => add_block st form
  | RemoveBlock pat => remove_block st pat
  | ToggleRule pat => toggle_rule st pat
  | ToggleMaintenance => toggle_maintenance st
  | ResetStats => reset_stats st
  end.

Definition run {L : Libraries} (st : State) (ops : list Op) : State :=
  foldl step st ops.

(** A series of queries; the outcomes are collected in order. *)
Fixpoint resolve_all {L : Libraries} (st : State)
    (calls : list (World * Request * Handler)) : State * list outcome :=
  match calls with
  | [] => (st, [])
  | (w, request, handler) :: rest =>
      let '(st1, o) := resolve st w request handler in
      let '(st2, os) := resolve_all st1 rest in
      (st2, o :: os)
  end.

(** ** Vocabulary of the specification *)

(** A rule restricts the time of day only when both of its bounds are set. *)
Definition time_active (now : time) (item : Rule) : bool :=
  let start := default EmptyString (start item) in
  let end_ := default EmptyString (end_ item) in
  negb (Str.nonempty start && Str.nonempty end_
        && negb (dentro_de_franja start end_ now)).

(** Enabled, matching the queried name, and inside its time window. *)
Definition eligible {L : Libraries} (domain : string) (now : time) (item : Rule) : bool :=
  (default true (enabled item) && matches_pattern domain (pattern item)
   && time_active now item)%bool.

(** The entry one call writes to the log. *)
Definition entry_of (w : World) (request : Request) (handler : Handler)
    (action : string) : LogEntry :=
  {| ts := world_ts w;
     client := default "unknown" (client_address handler);
     query := qname request ++ " (" ++ qtype request ++ ")";
     action := action |}.

(** ** A concrete reading of the two library functions *)

Module Glob.

(** [fnmatch.translate] on a POSIX system, where [os.path.normcase] changes
    nothing: [*] is any run of characters, [?] is any one character, [[...]] is
    a set of characters and ranges, [[!...]] its complement, and every other
    character stands for itself. *)

Inductive item := Single (c : ascii) | Range (lo hi : ascii).

Inductive tok :=
| Star
| AnyChar
| Lit (c : ascii)
| Set_ (neg : bool) (items : list item).

Definition code (c : ascii) : N := N_of_ascii c.

(** A hyphen between two characters makes a range; the first character of
    the set and the character after a range never act as the hyphen of one. *)
Fixpoint items_of (body : string) : list item :=
  match body with
  | EmptyString => []
  | String lo (String "-" (String hi r)) => Range lo hi :: items_of r
  | String c r => Single c :: items_of r
  end.

Definition proper (i : item) : bool :=
  match i with
  | Single _ => true
  | Range lo hi => N.leb (code lo) (code hi)
  end.

(** Ranges that run backwards are dropped.  When that leaves an exclamation
    mark at the head of a set that was not negated, the translation reads it
    as a negation. *)
Definition set_of (neg : bool) (body : string) : tok :=
  let its := List.filter proper (items_of body) in
  if neg then Set_ true its
  else
    match its with
    | Single "!" :: rest => Set_ true rest
    | Range "!" hi :: rest => Set_ true (Single "-" :: Single hi :: rest)
    | _ => Set_ false its
    end.

(** The text before the next closing bracket, and its length. *)
Fixpoint until_close (s : string) : option (string * nat) :=
  match s with
  | EmptyString => None
  | String c r =>
      if Ascii.eqb c "]" then Some (EmptyString, 0)
      else
        match until_close r with
        | Some (b, n) => Some (String c b, S n)
        | None => None
        end
  end.

(** The set that starts after an opening bracket, with the number of
    characters it takes; [None] when the bracket is never closed. *)
Definition bracket (rest : string) : option (tok * nat) :=
  let '(neg, r1, n1) :=
    match rest with
    | String "!" r => (true, r, 1)
    | _ => (false, rest, 0)
    end in
  match r1 with
  | String "]" r2 =>
      match until_close r2 with
      | Some (b, n) => Some (set_of neg (String "]" b), n1 + 1 + n + 1)
      | None => None
      end
  | _ =>
      match until_close r1 with
      | Some (b, n) => Some (set_of neg b, n1 + n + 1)
      | None => None
      end
  end.

(** [skip] counts the characters of a set still to be passed over. *)
Fixpoint translate (skip : nat) (pat : string) : list tok :=
  match pat with
  | EmptyString => []
  | String c rest =>
      match skip with
      | S k => translate k rest
      | O =>
          if Ascii.eqb c "*" then Star :: translate 0 rest
          else if Ascii.eqb c "?" then AnyChar :: translate 0 rest
          else if Ascii.eqb c "[" then
            match bracket rest with
            | Some (t, n) => t :: translate n rest
            | None => Lit "[" :: translate 0 rest
            end
          else Lit c :: translate 0 rest
      end
  end.

Definition in_item (c : ascii) (i : item) : bool :=
  match i with
  | Single d => Ascii.eqb c d
  | Range lo hi => (N.leb (code lo) (code c) && N.leb (code c) (code hi))%bool
  end.

Definition accepts (t : tok) (c : ascii) : bool :=
  match t with
  | Star | AnyChar => true
  | Lit d => Ascii.eqb c d
  | Set_ neg its => xorb neg (existsb (in_item c) its)
  end.

(** The pattern must match the whole name. *)
Fixpoint full_match (toks : list tok) (s : string) : bool :=
  match toks with
  | [] => negb (Str.nonempty s)
  | Star :: ts =>
      (fix star (s : string) : bool :=
         (full_match ts s ||
          match s with
          | EmptyString => false
          | String _ r => star r
          end)%bool) s
  | t :: ts =>
      match s with
      | EmptyString => false
      | String c r => (accepts t c && full_match ts r)%bool
      end
  end.

Definition fnmatch (name pat : string) : bool :=
  full_match (translate 0 pat) name.

End Glob.

Module Concrete.

(** [s.split('.')] *)
Fixpoint split_dot (s : string) : list string :=
  match s with
  | EmptyString => [EmptyString]
  | String c r =>
      if Str.is_dot c then EmptyString :: split_dot r
      else
        match split_dot r with
        | h :: t => String c h :: t
        | [] => [String c EmptyString]
        end
  end.

(** Decimal digits, with single underscores allowed between them. *)
Fixpoint digits (acc : Z) (s : string) : option Z :=
  match s with
  | EmptyString => Some acc
  | String c r =>
      if Str.isdigit c then digits (10 * acc + Strptime.digit c)%Z r
      else if Ascii.eqb c "_" then
        match r with
        | String d _ => if Str.isdigit d then digits acc r else None
        | EmptyString => None
        end
      else None
  end.

(** [int(s)]: white space around the literal is ignored, a sign may come
    first, and the digits start right after it.  The message quotes the text
    as [repr] does for text without quotes or control characters. *)
Definition int (s : string) : result Z :=
  let invalid := Raise ("invalid literal for int() with base 10: '" ++ s ++ "'") in
  let '(negative, body) :=
    match Str.strip s with
    | String "-" r => (true, r)
    | String "+" r => (false, r)
    | t => (false, t)
    end in
  match body with
  | String c _ =>
      if Str.isdigit c then
        match digits 0 body with
        | Some n => Ok (if negative then - n else n)%Z
        | None => invalid
        end
      else invalid
  | EmptyString => invalid
  end.

Fixpoint map_int (l : list string) : result (list Z) :=
  match l with
  | [] => Ok []
  | s :: rest =>
      match int s with
      | Raise e => Raise e
      | Ok n =>
          match map_int rest with
          | Raise e => Raise e
          | Ok ns => Ok (n :: ns)
          end
      end
  end.

(** [repr] of a tuple of integers. *)
Definition repr_tuple (l : list Z) : string :=
  match l with
  | [x] => "(" ++ pretty x ++ ",)"
  | _ => "(" ++ String.concat ", " (List.map pretty l) ++ ")"
  end.

(** The constructor of dnslib's [A] on a string: the conversion
    [tuple(map(int, data.rstrip(".").split(".")))], then the check of the
    attribute that the tuple has four items between 0 and 255. *)
Definition A_data (data : string) : result (list Z) :=
  match map_int (split_dot (Str.rstrip_dots data)) with
  | Raise e => Raise e
  | Ok l =>
      if (Nat.eqb (length l) 4 && forallb (fun x => (0 <=? x) && (x <=? 255))%Z l)%bool
      then Ok l
      else Raise ("Attribute 'data' must be tuple with 4 elements [0-255]: "
                  ++ repr_tuple l)
  end.

Definition lib : Libraries := {| fnmatch := Glob.fnmatch; dns_A := A_data |}.

End Concrete.

(** The [n] newest elements of a list that grows at its end. *)
Definition most_recent {T : Type} (n : nat) (l : list T) : list T :=
  drop (length l - n) l.

Definition dot_terminated (item : Rule) : Prop :=
  Str.endswith_dot (pattern item) = true.

(** ** Sample inputs *)

Module Demo.

Definition noon : time := mk_time 12 0 0 0.

(** A system resolver that knows one host. *)
Definition hosts (host : string) : result string :=
  if String.eqb host "openai.com" then Ok "104.18.33.45"
  else Raise "[Errno -2] Name or service not known".

Definition world : World :=
  {| world_ts := "2024-05-17 12:00:00"; world_now := noon; gethostbyname := hosts |}.

Definition ask (name : string) : Request := {| qname := name; qtype := "A" |}.

Definition peer : Handler := {| client_address := Some "192.0.2.7" |}.

Definition rule (pat target : string) : Rule :=
  {| pattern := pat; ip := target; start := Some EmptyString;
     end_ := Some EmptyString; enabled := Some true |}.

Definition form (pat target : string) : AddForm :=
  {| form_pattern := pat; form_ip := target; form_start := None; form_end := None |}.

Definition bloqueos : list Rule :=
  [flip_enabled (rule "*.example." "10.0.0.1");
   rule "*.ads.example." "0.0.0.0";
   rule "tracker.*" "Refused";
   rule "x.ads.example." "REFUSED"].

Definition serving : State := startup bloqueos false.

Definition closed : State := startup bloqueos true.

(** The state after an administrator has posted a rule whose target is a
    word, not an address. *)
Definition mistyped : State :=
  add_block (startup [] false) (form "ads.example" "bad").

Definition sinkholed : State :=
  add_block (startup [] false) (form " *.tracker.net " "sinkhole").

End Demo.

(** A time of day as [datetime.time] holds it. *)
Definition valid_time (t : time) : Prop :=
  (0 <= hour t <= 23 /\ 0 <= minute t <= 59 /\ 0 <= second t <= 59 /\
   0 <= microsecond t <= 999999)%Z.

(** The pattern [add_block] stores for a posted one. *)
Definition stored_pattern (posted : string) : string :=
  let pat := Str.strip posted in
  if negb (Str.endswith_dot pat) then pat ++ "." else pat.

(** ** The configuration file

    [config.json] holds one JSON object; the code reads its keys ['bloqueos']
    and ['maintenance'], either of which may be missing.  Writing the file is
    taken to succeed. *)

Record ConfigFile := {
  file_bloqueos : option (list Rule);
  file_maintenance : option bool
}.

(** [load_config]; [None] is a file that does not exist. *)
Definition load_config (file : option ConfigFile) : ConfigFile :=
  match file with
  | Some cfg => cfg
  | None => {| file_bloqueos := Some []; file_maintenance := Some false |}
  end.

(** The dictionary [config].  When it has the key ['bloqueos'] the value is
    the very list [global_bloqueos] (line 42 takes the list out of the
    dictionary, lines 260, 271 and 287 put the current list back), so only the
    presence of the key is recorded. *)
Record Config := {
  has_bloqueos : bool;
  maintenance_key : option bool
}.

(** The process: the four globals, the dictionary [config] and the file. *)
Record Server := {
  core : State;
  config : Config;
  disk : option ConfigFile
}.

(** Lines 41-45, run when the module is loaded. *)
Definition boot (file : option ConfigFile) : Server :=
  let cfg := load_config file in
  {| core := startup (default [] (file_bloqueos cfg))
               (default false (file_maintenance cfg));
     config := {| has_bloqueos := bool_decide (is_Some (file_bloqueos cfg));
                  maintenance_key := file_maintenance cfg |};
     disk := file |}.

(** What [json.dump(config, f)] writes. *)
Definition dump (srv : Server) : ConfigFile :=
  {| file_bloqueos :=
       if has_bloqueos (config srv) then Some (global_bloqueos (core srv)) else None;
     file_maintenance := maintenance_key (config srv) |}.

(** [save_config(config)] *)
Definition save_config (srv : Server) : Server :=
  {| core := core srv; config := config srv; disk := Some (dump srv) |}.

(** [config['bloqueos'] = global_bloqueos; save_config(config)] after the
    globals became [st]. *)
Definition store_bloqueos (srv : Server) (st : State) : Server :=
  save_config
    {| core := st;
       config := {| has_bloqueos := true;
                    maintenance_key := maintenance_key (config srv) |};
       disk := disk srv |}.

(** ** The dashboard *)

Module Web.

Definition ADMIN_USER : string := "admin".
Definition ADMIN_PASS : string := "admin".

Inductive Method := GET | HEAD | POST | OPTIONS | OTHER.

(** The parts of a Flask request the views read: [request.method],
    [request.path] (as the URL map sees it), [request.form] and
    [request.args]. *)
Record HttpRequest := {
  req_method : Method;
  req_path : string;
  req_form : gmap string string;
  req_args : gmap string string
}.

(** The signed session cookie: the key ['logged_in'] and the flashed
    messages, each with its category. *)
Record Session := {
  logged_in : bool;
  flashes : list (string * string)
}.

Inductive Location :=
| UrlFor (endpoint : string) (next : option string)
| Url (target : string).

(** What goes back to the browser.  Of a rendered page only the flashed
    messages it shows and which of its two views it takes (the dashboard or
    the login form) are kept. *)
Inductive Response :=
| Redirect (to : Location)
| Page (dashboard : bool) (messages : list (string * string))
| Abort (status : nat)
| ServerError (e : string)
| AutoOptions.

Definition View : Type := Server -> Session -> HttpRequest -> Server * Session * Response.

(** [flash(message, category)] *)
Definition flash (sess : Session) (message category : string) : Session :=
  {| logged_in := logged_in sess;
     flashes := (flashes sess ++ [(category, message)])%list |}.

(** [render_template_string(TEMPLATE, ...)]: the template takes the flashed
    messages out of the session and shows the dashboard to a logged-in
    session. *)
Definition render (srv : Server) (sess : Session) : Server * Session * Response :=
  (srv, {| logged_in := logged_in sess; flashes := [] |},
   Page (logged_in sess) (flashes sess)).

Definition login_required (f : View) : View :=
  fun srv sess req =>
    if logged_in sess then f srv sess req
    else
      (srv, flash sess "🔒 ¡Acceso denegado! Primero inicia sesión." "warning",
       Redirect (UrlFor "login" (Some (req_path req)))).

Definition login : View :=
  fun srv sess req =>
    match req_method req with
    | POST =>
        let wrong :=
          render srv (flash sess "❌ Usuario o contraseña incorrectos." "warning") in
        match req_form req !! "username" with
        | None => (srv, sess, Abort 400)
        | Some username =>
            if String.eqb username ADMIN_USER then
              match req_form req !! "password" with
              | None => (srv, sess, Abort 400)
              | Some password =>
                  if String.eqb password ADMIN_PASS then
                    let sess :=
                      flash {| logged_in := true; flashes := flashes sess |}
                        "✅ ¡Bienvenido, comandante!" "warning" in
                    (srv, sess,
                     Redirect
                       (match req_args req !! "next" with
                        | Some next =>
                            if Str.nonempty next then Url next
                            else UrlFor "index" None
                        | None => UrlFor "index" None
                        end))
                  else wrong
              end
            else wrong
        end
    | _ => render srv sess
    end.

Definition logout : View :=
  login_required (fun srv sess req =>
    (srv,
     flash {| logged_in := false; flashes := [] |}
       "👋 Hasta luego, alcalde de la DNS." "warning",
     Redirect (UrlFor "login" None))).

Definition index : View :=
  login_required (fun srv sess req => render srv sess).

Definition toggle_maintenance : View :=
  login_required (fun srv sess req =>
    let st := toggle_maintenance (core srv) in
    let srv :=
      save_config
        {| core := st;
           config := {| has_bloqueos := has_bloqueos (config srv);
                        maintenance_key := Some (maintenance_mode st) |};
           disk := disk srv |} in
    let estado := if maintenance_mode st then "activado" else "desactivado" in
    (srv, flash sess ("🔧 Modo mantenimiento " ++ estado ++ ".") "warning",
     Redirect (UrlFor "index" None))).

Definition add_block : View :=
  login_required (fun srv sess req =>
    match req_form req !! "pattern" with
    | None => (srv, sess, Abort 400)
    | Some pattern =>
        match req_form req !! "ip" with
        | None => (srv, sess, Abort 400)
        | Some ip =>
            let form :=
              {| form_pattern := pattern; form_ip := ip;
                 form_start := req_form req !! "start";
                 form_end := req_form req !! "end" |} in
            let start := default "00:00" (form_start form) in
            let end_ := default "23:59" (form_end form) in
            (store_bloqueos srv (add_block (core srv) form),
             flash sess
               ("Añadido: " ++ stored_pattern pattern ++ " → " ++ Str.strip ip
                ++ " @ " ++ start ++ "-" ++ end_) "warning",
             Redirect (UrlFor "index" None))
        end
    end).

(** [f"{pat}"] for the result of [request.args.get('pattern')]. *)
Definition show (pat : option string) : string := default "None" pat.

Definition remove_block : View :=
  login_required (fun srv sess req =>
    let pat := req_args req !! "pattern" in
    (store_bloqueos srv (remove_block (core srv) pat),
     flash sess ("Eliminado: " ++ show pat) "warning",
     Redirect (UrlFor "index" None))).

Definition toggle_rule : View :=
  login_required (fun srv sess req =>
    let pat := req_args req !! "pattern" in
    let sess :=
      match List.find (fun item => bool_decide (Some (pattern item) = pat))
              (global_bloqueos (core srv)) with
      | Some item =>
          let status :=
            if negb (default true (enabled item)) then "habilitada"
            else "deshabilitada" in
          flash sess ("Regla " ++ status ++ ": " ++ show pat) "warning"
      | None => sess
      end in
    (store_bloqueos srv (toggle_rule (core srv) pat), sess,
     Redirect (UrlFor "index" None))).

Definition reset_stats : View :=
  login_required (fun srv sess req =>
    ({| core := reset_stats (core srv); config := config srv; disk := disk srv |},
     flash sess "🔄 Estadísticas reiniciadas." "warning",
     Redirect (UrlFor "index" None))).

(** Both download views stop at [csv.writerow(si)]: the module [csv] has no
    such attribute. *)
Definition download : View :=
  login_required (fun srv sess req =>
    (srv, sess, ServerError "module 'csv' has no attribute 'writerow'")).

(** The URL map: path, declared methods, view. *)
Definition routes : list (string * list Method * View) :=
  [("/login", [GET; POST], login);
   ("/logout", [GET], logout);
   ("/", [GET], index);
   ("/toggle_maintenance", [GET], toggle_maintenance);
   ("/add", [POST], add_block);
   ("/remove", [GET], remove_block);
   ("/toggle", [GET], toggle_rule);
   ("/reset_stats", [GET], reset_stats);
   ("/download_logs", [GET], download);
   ("/download_stats", [GET], download)].

Definition method_eqb (a b : Method) : bool :=
  match a, b with
  | GET, GET | HEAD, HEAD | POST, POST | OPTIONS, OPTIONS | OTHER, OTHER => true
  | _, _ => false
  end.

(** A rule that takes GET also takes HEAD, and every rule takes OPTIONS. *)
Definition allowed (declared : list Method) (m : Method) : bool :=
  (existsb (method_eqb m) declared
   || (method_eqb m HEAD && existsb (method_eqb GET) declared)
   || method_eqb m OPTIONS)%bool.

(** One request: 404 for an unknown path, 405 for a method the rule does not
    take, the automatic answer to OPTIONS, and the view otherwise. *)
Definition handle (srv : Server) (sess : Session) (req : HttpRequest)
    : Server * Session * Response :=
  match List.find (fun r => String.eqb (req_path req) r.1.1) routes with
  | None => (srv, sess, Abort 404)
  | Some (_, declared, view) =>
      if allowed declared (req_method req) then
        if method_eqb (req_method req) OPTIONS then (srv, sess, AutoOptions)
        else view srv sess req
      else (srv, sess, Abort 405)
  end.

(** One browser: the session cookie of each answer comes back with the next
    request. *)
Fixpoint browse (srv : Server) (sess : Session) (reqs : list HttpRequest)
    : Server * Session :=
  match reqs with
  | [] => (srv, sess)
  | req :: rest =>
      let '(srv, sess, _) := handle srv sess req in
      browse srv sess rest
  end.

(** A request that presents the administrator's name and password. *)
Definition presents_credentials (req : HttpRequest) : Prop :=
  req_path req = "/login" /\ req_method req = POST /\
  req_form req !! "username" = Some ADMIN_USER /\
  req_form req !! "password" = Some ADMIN_PASS.

End Web.

(** What reaches the process: a DNS query, or a request to the dashboard
    with the session cookie it carries. *)
Inductive Event :=
| Query (w : World) (request : Request) (handler : Handler)
| Visit (sess : Web.Session) (req : Web.HttpRequest).

Definition serve_event {L : Libraries} (srv : Server) (ev : Event) : Server :=
  match ev with
  | Query w request handler =>
      {| core := (resolve (core srv) w request handler).1;
         config := config srv; disk := disk srv |}
  | Visit sess req => (Web.handle srv sess req).1.1
  end.

Definition serve {L : Libraries} (srv : Server) (evs : list Event) : Server :=
  foldl serve_event srv evs.

(** The rules and the flag in memory are the ones a restart would load from
    the file as it stands, and the dictionary [config] agrees with the
    globals. *)
Definition persisted (srv : Server) : Prop :=
  global_bloqueos (core (boot (disk srv))) = global_bloqueos (core srv) /\
  maintenance_mode (core (boot (disk srv))) = maintenance_mode (core srv) /\
  (has_bloqueos (config srv) = false -> global_bloqueos (core srv) = []) /\
  default false (maintenance_key (config srv)) = maintenance_mode (core srv).

(** The fallback as the specification words it: the system resolver is
    asked for the name with one trailing separator stripped. *)
Definition upstream_spec {L : Libraries} (w : World) (domain : string)
    : Dns.Reply * string :=
  match gethostbyname w (strip_one_dot domain) with
  | Raise e => (Dns.reply, "error " ++ e)
  | Ok real_ip =>
      match dns_A real_ip with
      | Raise e => (Dns.reply, "error " ++ e)
      | Ok a =>
          (Dns.add_answer Dns.reply
             {| Dns.rname := domain; Dns.rtype := Dns.QA;
                Dns.rdata := Dns.A a; Dns.ttl := 60 |},
           "resolved external " ++ real_ip)
      end
  end.

(** A system resolver that knows the host [a] and nothing else. *)
Definition only_a (host : string) : result string :=
  if String.eqb host "a" then Ok "192.0.2.1"
  else Raise "[Errno -2] Name or service not known".

Definition world_of_a : World :=
  {| world_ts := "2024-05-17 12:00:00"; world_now := mk_time 12 0 0 0;
     gethostbyname := only_a |}.

(** ** Sample visits to the dashboard *)

Module Tour.

Definition guest : Web.Session := {| Web.logged_in := false; Web.flashes := [] |}.

Definition admin : Web.Session := {| Web.logged_in := true; Web.flashes := [] |}.

Definition get (path : string) (args : gmap string string) : Web.HttpRequest :=
  {| Web.req_method := Web.GET; Web.req_path := path;
     Web.req_form := ∅; Web.req_args := args |}.

Definition post (path : string) (form : gmap string string) : Web.HttpRequest :=
  {| Web.req_method := Web.POST; Web.req_path := path;
     Web.req_form := form; Web.req_args := ∅ |}.

Definition sign_in : Web.HttpRequest :=
  post "/login" (<["username" := "admin"]> (<["password" := "admin"]> ∅)).

Definition wrong_password : Web.HttpRequest :=
  post "/login" (<["username" := "admin"]> (<["password" := "hunter2"]> ∅)).

Definition post_rule : Web.HttpRequest :=
  post "/add" (<["pattern" := "ads.example"]> (<["ip" := "0.0.0.0"]> ∅)).

Definition unplug : Web.HttpRequest :=
  get "/remove" (<["pattern" := "ads.example."]> ∅).

(** A configuration file written by hand, with a padded target. *)
Definition by_hand : ConfigFile :=
  {| file_bloqueos := Some [Demo.rule "tracker.*" " refuſed 　"];
     file_maintenance := None |}.

(** Two rules under one pattern. *)
Definition twins : State :=
  startup [Demo.rule "dup.example." "192.0.2.1"; Demo.rule "dup.example." "192.0.2.2"]
    false.

Definition half_past (h m : Z) : time := mk_time h m 30 0.

End Tour.

(** * Properties *)

(** ** Strings *)

Section StringFacts.

Import Str.

Lemma append_cons (a : ascii) (s t : string) : String a s ++ t = String a (s ++ t).
Proof. reflexivity. Qed.

Lemma append_empty_l (t : string) : EmptyString ++ t = t.
Proof. reflexivity. Qed.

Lemma append_empty_r (s : string) : s ++ EmptyString = s.
Proof.
  induction s as [|a s IH]; [reflexivity|]. by rewrite append_cons, IH.
Qed.

Lemma append_String_assoc (s : string) (c : ascii) (t : string) :
  s ++ String c t = (s ++ String c EmptyString) ++ t.
Proof.
  induction s as [|a s IH]; [reflexivity|]. by rewrite !append_cons, IH.
Qed.

Lemma rstrip_snoc (p : ascii -> bool) (s : string) (c : ascii) :
  p c = true -> rstrip p (s ++ String c EmptyString) = rstrip p s.
Proof.
  intros Hc. induction s as [|a s IH].
  - rewrite append_empty_l. simpl. by rewrite Hc.
  - rewrite append_cons. simpl. by rewrite IH.
Qed.

Lemma rstrip_dots_app (s : string) (n : nat) :
  rstrip_dots (s ++ dots n) = rstrip_dots s.
Proof.
  revert s. induction n as [|n IH]; intros s.
  - change (dots 0) with EmptyString. by rewrite append_empty_r.
  - change (dots (S n)) with (String "." (dots n)).
    rewrite append_String_assoc, IH. by apply rstrip_snoc.
Qed.

Lemma endswith_dot_rstrip (s : string) : endswith_dot (rstrip_dots s) = false.
Proof.
  unfold rstrip_dots. induction s as [|c s IH]; simpl; [reflexivity|].
  destruct (rstrip is_dot s) as [|d r] eqn:E.
  - destruct (is_dot c) eqn:Hc; simpl; [reflexivity | exact Hc].
  - exact IH.
Qed.

Lemma rstrip_dots_decomp (s : string) :
  exists n, s = rstrip_dots s ++ dots n.
Proof.
  unfold rstrip_dots. induction s as [|c s [n IH]]; simpl.
  - by exists 0.
  - destruct (rstrip is_dot s) as [|d r] eqn:E.
    + rewrite append_empty_l in IH. destruct (is_dot c) eqn:Hc.
      * apply Ascii.eqb_eq in Hc. subst c. exists (S n).
        rewrite append_empty_l. simpl. by rewrite <- IH.
      * exists n. rewrite append_cons, append_empty_l. by rewrite <- IH.
    + exists n. rewrite append_cons. by rewrite <- IH.
Qed.

Lemma rstrip_dots_fixed (s : string) :
  endswith_dot s = false -> rstrip_dots s = s.
Proof.
  unfold rstrip_dots. induction s as [|c s IH]; [reflexivity|].
  destruct s as [|d s'].
  - simpl. by intros ->.
  - intros H. change (endswith_dot (String d s') = false) in H.
    specialize (IH H). simpl in *. by rewrite IH.
Qed.

(** On a name that ends with one separator, as a query name does, removing
    the trailing dots removes that one character. *)
Lemma rstrip_dots_single (s : string) :
  endswith_dot s = false -> rstrip_dots (s ++ ".") = s.
Proof.
  intros H. change "." with (dots 1).
  by rewrite rstrip_dots_app, rstrip_dots_fixed.
Qed.

Lemma endswith_dot_snoc (s : string) : endswith_dot (s ++ ".") = true.
Proof.
  induction s as [|c s IH]; [reflexivity|].
  rewrite append_cons. simpl.
  destruct (s ++ ".") eqn:E; [by destruct s | exact IH].
Qed.

Lemma byte_eq (a : ascii) (n : N) : byte a n = true -> a = ascii_of_N n.
Proof.
  unfold byte. intros H. apply N.eqb_eq in H. rewrite <- H.
  symmetry. apply ascii_N_embedding.
Qed.

Lemma upper_char_inv (a c : ascii) :
  upper_char a = c -> a = c \/ a = ascii_of_N (N_of_ascii c + 32).
Proof.
  unfold upper_char. destruct (islower a) eqn:Hl; [|by left].
  intros <-. right.
  unfold islower, between in Hl. apply andb_true_iff in Hl as [H1 H2].
  apply N.leb_le in H1, H2.
  rewrite N_ascii_embedding by lia.
  replace (N_of_ascii a - 32 + 32)%N with (N_of_ascii a) by lia.
  symmetry. apply ascii_N_embedding.
Qed.

(** How the first character of an upper-cased text came about: from one
    byte, from the long s, or from a character that gives I, SS, ST or a
    ligature of F. *)
Lemma upper_head (a c : ascii) (s1 w : string) :
  upper (String a s1) = String c w ->
  (upper_char a = c /\ upper s1 = w) \/
  (a = ascii_of_N 197 /\ c = "S"%char /\
   exists s2, s1 = String (ascii_of_N 191) s2 /\ upper s2 = w) \/
  c = "I"%char \/
  exists x w', w = String x w' /\
    ((c = "S"%char /\ (x = "S"%char \/ x = "T"%char)) \/
     (c = "F"%char /\ (x = "F"%char \/ x = "I"%char \/ x = "L"%char))).
Proof.
  destruct s1 as [|b s2]; [simpl; intros [= <- <-]; by left|].
  change (upper (String a (String b s2))) with
    (if (byte a 196 && byte b 177)%bool then String "I" (upper s2)
     else if (byte a 197 && byte b 191)%bool then String "S" (upper s2)
     else if (byte a 195 && byte b 159)%bool then String "S" (String "S" (upper s2))
     else if (byte a 239 && byte b 172)%bool then
       match s2 with
       | EmptyString => String (upper_char a) (upper (String b s2))
       | String c s3 =>
           match ligature c with
           | Some w => w ++ upper s3
           | None => String (upper_char a) (upper (String b s2))
           end
       end
     else String (upper_char a) (upper (String b s2))).
  destruct (byte a 196 && byte b 177)%bool; [intros [= <- _]; auto|].
  destruct (byte a 197 && byte b 191)%bool eqn:Hs.
  { apply andb_true_iff in Hs as [Ha Hb]. apply byte_eq in Ha, Hb. subst a b.
    intros [= <- <-]. right; left. repeat split. by exists s2. }
  destruct (byte a 195 && byte b 159)%bool.
  { intros [= <- <-]. do 3 right. eexists _, _. split; [reflexivity|]. auto. }
  destruct (byte a 239 && byte b 172)%bool; [|intros [= <- <-]; by left].
  destruct s2 as [|c0 s3]; [intros [= <- <-]; by left|].
  unfold ligature.
  repeat match goal with
         | |- context [if byte c0 ?n then _ else _] => destruct (byte c0 n)
         end;
    try (intros [= <- <-]; by left);
    rewrite ?append_cons, ?append_empty_l; intros [= <- <-];
    do 3 right; eexists _, _; (split; [reflexivity|]); auto 6.
Qed.

Lemma upper_empty (s : string) : upper s = EmptyString -> s = EmptyString.
Proof.
  destruct s as [|a s1]; [reflexivity|]. intros H. exfalso.
  destruct (upper (String a s1)) eqn:E; [|discriminate].
  destruct s1 as [|b s2]; [discriminate E|].
  simpl in E.
  repeat match type of E with
         | (if ?b then _ else _) = _ => destruct b; try discriminate E
         end.
  destruct s2 as [|c0 s3]; [discriminate E|].
  unfold ligature in E.
  repeat match type of E with
         | context [if byte c0 ?n then _ else _] => destruct (byte c0 n)
         end; discriminate E.
Qed.

Ltac peel H s :=
  let Hc := fresh "Hc" in
  let Ha := fresh "Ha" in
  let Hs := fresh "Hs" in
  let Hw := fresh "Hw" in
  let s2 := fresh "s" in
  let x := fresh "x" in
  let w' := fresh "w" in
  destruct s as [|? s]; [discriminate H|];
  apply upper_head in H;
  destruct H as [[Hc H]|[(Ha & Hc & s2 & Hs & H)|[Hc|(x & w' & Hw & Hc)]]];
  [ apply upper_char_inv in Hc
  | first [discriminate Hc | subst s; rename s2 into s]
  | discriminate Hc
  | exfalso; first [discriminate Hw | injection Hw as <- <-; intuition discriminate] ].

(** A string that is REFUSED up to case has no white space to strip. *)
Lemma strip_refused (s : string) : upper s = "REFUSED" -> strip s = s.
Proof.
  intros H. peel H s. peel H s. peel H s. peel H s.
  peel H s; peel H s; peel H s.
  all: apply upper_empty in H; subst.
  all: repeat match goal with
              | D : _ \/ _ |- _ => destruct D
              end; subst; reflexivity.
Qed.

End StringFacts.

(** ** Time windows *)

Lemma time_le_refl (t : time) : time_le t t = true.
Proof. unfold time_le, time_cmp. by rewrite !Z.compare_refl. Qed.

Lemma time_le_total (a b : time) : time_le a b = true \/ time_le b a = true.
Proof.
  unfold time_le, time_cmp.
  rewrite (Z.compare_antisym (hour a) (hour b)).
  rewrite (Z.compare_antisym (minute a) (minute b)).
  rewrite (Z.compare_antisym (second a) (second b)).
  rewrite (Z.compare_antisym (microsecond a) (microsecond b)).
  destruct (hour a ?= hour b)%Z, (minute a ?= minute b)%Z,
    (second a ?= second b)%Z, (microsecond a ?= microsecond b)%Z;
    simpl; auto.
Qed.

Lemma parse_HM_empty : Strptime.parse_HM EmptyString = None.
Proof. reflexivity. Qed.

Lemma between_digit (lo hi : N) (c : ascii) :
  Str.between lo hi c = true ->
  (Z.of_N lo - 48 <= Strptime.digit c <= Z.of_N hi - 48)%Z.
Proof.
  unfold Str.between, Strptime.digit. intros H.
  apply andb_true_iff in H as [H1 H2].
  apply N.leb_le in H1, H2. lia.
Qed.

Lemma re_H_range (s : string) (h : Z) (r : string) :
  (h, r) ∈ Strptime.re_H s -> (0 <= h <= 23)%Z.
Proof.
  unfold Strptime.re_H. rewrite !elem_of_app.
  destruct s as [|c [|d r']]; intros [H|[H|H]];
    try (by apply elem_of_nil in H);
    repeat match type of H with
    | _ ∈ (if ?b then _ else _) => destruct b eqn:?; [|by apply elem_of_nil in H]
    end;
    apply list_elem_of_singleton in H; injection H as -> _;
    repeat match goal with
    | E : (_ && _)%bool = true |- _ => apply andb_true_iff in E as [??]
    | E : Str.between _ _ _ = true |- _ => apply between_digit in E
    | E : Str.isdigit _ = true |- _ => apply between_digit in E
    end; lia.
Qed.

Lemma re_M_range (s : string) (m : Z) (r : string) :
  (m, r) ∈ Strptime.re_M s -> (0 <= m <= 59)%Z.
Proof.
  unfold Strptime.re_M. rewrite !elem_of_app.
  destruct s as [|c [|d r']]; intros [H|H];
    try (by apply elem_of_nil in H);
    repeat match type of H with
    | _ ∈ (if ?b then _ else _) => destruct b eqn:?; [|by apply elem_of_nil in H]
    end;
    apply list_elem_of_singleton in H; injection H as -> _;
    repeat match goal with
    | E : (_ && _)%bool = true |- _ => apply andb_true_iff in E as [??]
    | E : Str.between _ _ _ = true |- _ => apply between_digit in E
    | E : Str.isdigit _ = true |- _ => apply between_digit in E
    end; lia.
Qed.

(** Whatever parses is a time of day with no seconds. *)
Lemma parse_HM_range (s : string) (t : time) :
  Strptime.parse_HM s = Some t ->
  (0 <= hour t <= 23 /\ 0 <= minute t <= 59 /\ second t = 0 /\ microsecond t = 0)%Z.
Proof.
  unfold Strptime.parse_HM.
  destruct (Strptime.matches s) as [|[[h m] rest] l] eqn:E; [discriminate|].
  destruct rest; [|discriminate]. intros [= <-]. simpl.
  assert (Hin : (h, m, EmptyString) ∈ Strptime.matches s) by (rewrite E; left).
  unfold Strptime.matches in Hin.
  apply list_elem_of_bind in Hin as ([h' r1] & Hin & Hh). simpl in Hin.
  apply re_H_range in Hh.
  destruct r1 as [|c r2]; [by apply elem_of_nil in Hin|].
  destruct (Ascii.eqb_spec c ":"); [subst c | destruct c as [[] [] [] [] [] [] [] []]; by apply elem_of_nil in Hin || done].
  apply list_elem_of_bind in Hin as ([m' r3] & Hin & Hm). simpl in Hin.
  apply re_M_range in Hm.
  apply list_elem_of_singleton in Hin. injection Hin as -> -> _. lia.
Qed.

(** The window as a proposition: closed at both ends, and wrapping past
    midnight when it starts after it ends. *)
Lemma dentro_de_franja_true (start_str end_str : string) (now : time) :
  dentro_de_franja start_str end_str now = true <->
  Strptime.parse_HM start_str = None \/ Strptime.parse_HM end_str = None \/
  exists a b,
    Strptime.parse_HM start_str = Some a /\ Strptime.parse_HM end_str = Some b /\
    ((time_le a b = true /\ time_le a now = true /\ time_le now b = true) \/
     (time_le a b = false /\ (time_le a now = true \/ time_le now b = true))).
Proof.
  unfold dentro_de_franja.
  destruct (Strptime.parse_HM start_str) as [a|]; [|by intuition].
  destruct (Strptime.parse_HM end_str) as [b|]; [|by intuition].
  destruct (time_le a b) eqn:Hab.
  - rewrite andb_true_iff. split.
    + intros [??]. right; right. exists a, b. by intuition.
    + intros [?|[?|(a' & b' & Ha & Hb & [(_ & ? & ?)|[? _]])]]; try discriminate.
      * by simplify_eq.
      * simplify_eq. congruence.
  - rewrite orb_true_iff. split.
    + intros ?. right; right. exists a, b. by intuition.
    + intros [?|[?|(a' & b' & Ha & Hb & [(? & _)|[_ ?]])]]; try discriminate.
      * simplify_eq. congruence.
      * by simplify_eq.
Qed.

(** Both ends of a window that does not wrap belong to it. *)
Lemma dentro_de_franja_boundaries (a b : time) (start_str end_str : string) :
  Strptime.parse_HM start_str = Some a ->
  Strptime.parse_HM end_str = Some b ->
  time_le a b = true ->
  dentro_de_franja start_str end_str a = true /\
  dentro_de_franja start_str end_str b = true.
Proof.
  intros Ha Hb Hab. unfold dentro_de_franja. rewrite Ha, Hb, Hab.
  by rewrite !time_le_refl.
Qed.

(** ** The rule loop *)

Section Engine.

Context {L : Libraries}.

Implicit Types (st : State) (w : World) (request : Request) (handler : Handler).
Implicit Types (est : gmap string nat) (item r : Rule).

Lemma count_hit_lookup pat est :
  count_hit pat est !! pat = Some (default 0 (est !! pat) + 1).
Proof. unfold count_hit. by rewrite lookup_insert_eq. Qed.

Lemma count_hit_other pat k est :
  k <> pat -> count_hit pat est !! k = est !! k.
Proof. intros Hk. unfold count_hit. by rewrite lookup_insert_ne. Qed.

Lemma for_item_skip item rest domain now est :
  eligible domain now item = false ->
  for_item (item :: rest) domain now est = for_item rest domain now est.
Proof.
  unfold eligible, time_active. intros He. simpl.
  destruct (default true (enabled item)); simpl in *; [|reflexivity].
  destruct (matches_pattern domain (pattern item)); simpl in *; [|reflexivity].
  apply negb_false_iff in He. by rewrite He.
Qed.

Lemma for_item_prefix pre rest domain now est :
  Forall (fun r => eligible domain now r = false) pre ->
  for_item (pre ++ rest) domain now est = for_item rest domain now est.
Proof.
  induction 1 as [|r pre Hr _ IH]; [reflexivity|].
  rewrite <- app_comm_cons. by rewrite for_item_skip.
Qed.

Lemma for_item_exhausted items domain now est :
  Forall (fun r => eligible domain now r = false) items ->
  for_item items domain now est = Exhausted.
Proof.
  intros H. rewrite <- (app_nil_r items). by rewrite for_item_prefix.
Qed.

(** The first eligible rule decides, whatever follows it. *)
Lemma for_item_winner pre r tail domain now est :
  Forall (fun r => eligible domain now r = false) pre ->
  eligible domain now r = true ->
  for_item (pre ++ r :: tail) domain now est =
    if String.eqb (Str.upper (Str.strip (ip r))) "REFUSED" then
      Break (count_hit (pattern r) est)
        {| Dns.rcode := Dns.REFUSED; Dns.rr := [] |}
        ("refused @ " ++ pattern r)
    else
      match dns_A (Str.strip (ip r)) with
      | Raise e => Raised (count_hit (pattern r) est) e
      | Ok a =>
          Break (count_hit (pattern r) est)
            {| Dns.rcode := Dns.NOERROR;
               Dns.rr := [{| Dns.rname := domain; Dns.rtype := Dns.QA;
                             Dns.rdata := Dns.A a; Dns.ttl := 60 |}] |}
            ("redirect to " ++ Str.strip (ip r) ++ " @ " ++ pattern r)
      end.
Proof.
  intros Hpre He. rewrite for_item_prefix by exact Hpre.
  unfold eligible, time_active in He.
  apply andb_true_iff in He as [He Ht]. apply andb_true_iff in He as [He Hm].
  apply negb_true_iff in Ht.
  simpl. rewrite He, Hm. simpl. rewrite Ht.
  destruct (String.eqb _ "REFUSED"); [reflexivity|].
  by destruct (dns_A _).
Qed.

(** Conversely, a loop that ends by exhaustion met no eligible rule. *)
Lemma for_item_exhausted_inv items domain now est :
  for_item items domain now est = Exhausted ->
  Forall (fun r => eligible domain now r = false) items.
Proof.
  induction items as [|r items IH]; intros H; [constructor|].
  destruct (eligible domain now r) eqn:He.
  - pose proof (for_item_winner [] r items domain now est (List.Forall_nil _) He) as Hw.
    change ([] ++ r :: items)%list with (r :: items) in Hw. rewrite H in Hw.
    destruct (String.eqb _ _); [discriminate|]. by destruct (dns_A _).
  - constructor; [exact He|]. apply IH. by rewrite for_item_skip in H.
Qed.

End Engine.

(** ** The log step in explicit terms *)

Lemma log_append_drop (l : list LogEntry) (e : LogEntry) :
  log_append l e = drop (length l + 1 - 100) (l ++ [e]).
Proof.
  unfold log_append, LOG_LIMIT. rewrite length_app. simpl.
  destruct (Nat.ltb_spec 100 (length l + 1)) as [Hlt|Hge]; [reflexivity|].
  by replace (length l + 1 - 100) with 0 by lia.
Qed.

Lemma last_drop_snoc {T : Type} (l : list T) (e : T) :
  last (drop (length l + 1 - 100) (l ++ [e])) = Some e.
Proof.
  rewrite drop_app_le by lia. apply last_snoc.
Qed.

(** ** The resolver *)

Section Resolver.

Context {L : Libraries}.

Implicit Types (st : State) (w : World) (request : Request) (handler : Handler).

(** C1. While the maintenance flag is set, every query is answered with the
    fixed TXT record; the counters are left as they were; the log afterwards
    is the old log with one entry added at its end, the one of this query
    with the action "maintenance mode", cut to its last 100 entries; and the
    rules play no part: the same call on any other rule list gives the same
    reply, log and counters. *)
Theorem maintenance_short_circuit st w request handler :
  maintenance_mode st = true ->
  let entry :=
    {| ts := world_ts w;
       client := default "unknown" (client_address handler);
       query := qname request ++ " (" ++ qtype request ++ ")";
       action := "maintenance mode" |} in
  resolve st w request handler =
    ({| maintenance_mode := true;
        global_bloqueos := global_bloqueos st;
        logs := drop (length (logs st) + 1 - 100) (logs st ++ [entry]);
        estadisticas := estadisticas st |},
     Returns
       {| Dns.rcode := Dns.NOERROR;
          Dns.rr := [{| Dns.rname := qname request; Dns.rtype := Dns.QTXT;
                        Dns.rdata := Dns.TXT "PabloDNS: Estamos en mantenimiento";
                        Dns.ttl := 60 |}] |}) /\
  last (logs (resolve st w request handler).1) = Some entry /\
  forall bloqueos,
    let other := resolve (set_bloqueos st bloqueos) w request handler in
    other.2 = (resolve st w request handler).2 /\
    logs other.1 = logs (resolve st w request handler).1 /\
    estadisticas other.1 = estadisticas st.
Proof.
  intros Hm entry.
  assert (Hres : resolve st w request handler =
    ({| maintenance_mode := true;
        global_bloqueos := global_bloqueos st;
        logs := drop (length (logs st) + 1 - 100) (logs st ++ [entry]);
        estadisticas := estadisticas st |},
     Returns (maintenance_reply (qname request)))).
  { unfold resolve. rewrite Hm. by rewrite log_append_drop. }
  split; [exact Hres|]. split.
  - rewrite Hres. simpl. apply last_drop_snoc.
  - intros bloqueos. unfold resolve. simpl. by rewrite Hm.
Qed.

(** C4, as amended. When no rule is eligible the name, with all of its
    trailing dots removed, goes to the system resolver.  An address gives an
    A answer with ttl 60 and the logged action "resolved external <address>";
    an exception gives a NOERROR reply with no records and the logged action
    "error <details>".  The call returns in both cases, its entry is the last
    of the log, and no counter changes. *)
Theorem upstream_fallback st w request handler :
  maintenance_mode st = false ->
  Forall (fun r => eligible (qname request) (world_now w) r = false)
    (global_bloqueos st) ->
  let st' := (resolve st w request handler).1 in
  let out := (resolve st w request handler).2 in
  let entry action :=
    {| ts := world_ts w;
       client := default "unknown" (client_address handler);
       query := qname request ++ " (" ++ qtype request ++ ")";
       action := action |} in
  let logged action :=
    logs st' = drop (length (logs st) + 1 - 100) (logs st ++ [entry action]) /\
    last (logs st') = Some (entry action) in
  estadisticas st' = estadisticas st /\
  match gethostbyname w (Str.rstrip_dots (qname request)) with
  | Ok address =>
      match dns_A address with
      | Ok a =>
          out = Returns
                  {| Dns.rcode := Dns.NOERROR;
                     Dns.rr := [{| Dns.rname := qname request; Dns.rtype := Dns.QA;
                                   Dns.rdata := Dns.A a; Dns.ttl := 60 |}] |} /\
          logged ("resolved external " ++ address)
      | Raise e =>
          out = Returns {| Dns.rcode := Dns.NOERROR; Dns.rr := [] |} /\
          logged ("error " ++ e)
      end
  | Raise e =>
      out = Returns {| Dns.rcode := Dns.NOERROR; Dns.rr := [] |} /\
      logged ("error " ++ e)
  end.
Proof.
  intros Hm Hnone. unfold resolve. rewrite Hm.
  rewrite for_item_exhausted by exact Hnone.
  unfold upstream.
  destruct (gethostbyname w _) as [address|e];
    [destruct (dns_A address)|]; simpl; rewrite log_append_drop;
    repeat split; apply last_drop_snoc.
Qed.

(** C2. Of two eligible rules (enabled, matching the name, inside their time
    window) the one stored first decides, [r1] being the first eligible rule
    of the list and [r2] any later one: the counter of [r1]'s pattern goes up
    by one and no other counter moves, the reply and the logged action are
    those of [r1], and the rules after [r1] have no influence on the
    result. *)
Theorem first_match_wins st w request handler pre r1 mid r2 post :
  maintenance_mode st = false ->
  global_bloqueos st = (pre ++ r1 :: mid ++ r2 :: post)%list ->
  Forall (fun r => eligible (qname request) (world_now w) r = false) pre ->
  eligible (qname request) (world_now w) r1 = true ->
  eligible (qname request) (world_now w) r2 = true ->
  let st' := (resolve st w request handler).1 in
  let out := (resolve st w request handler).2 in
  estadisticas st' !! pattern r1
    = Some (default 0 (estadisticas st !! pattern r1) + 1) /\
  (forall k, k <> pattern r1 -> estadisticas st' !! k = estadisticas st !! k) /\
  (if String.eqb (Str.upper (Str.strip (ip r1))) "REFUSED" then
     out = Returns {| Dns.rcode := Dns.REFUSED; Dns.rr := [] |} /\
     logs st' = log_append (logs st)
                  (entry_of w request handler ("refused @ " ++ pattern r1))
   else
     match dns_A (Str.strip (ip r1)) with
     | Ok a =>
         out = Returns
                 {| Dns.rcode := Dns.NOERROR;
                    Dns.rr := [{| Dns.rname := qname request; Dns.rtype := Dns.QA;
                                  Dns.rdata := Dns.A a; Dns.ttl := 60 |}] |} /\
         logs st' = log_append (logs st)
                      (entry_of w request handler
                         ("redirect to " ++ Str.strip (ip r1) ++ " @ " ++ pattern r1))
     | Raise e => out = Raises e /\ logs st' = logs st
     end) /\
  forall tail,
    let other := resolve (set_bloqueos st (pre ++ r1 :: tail)) w request handler in
    other.2 = out /\ logs other.1 = logs st' /\
    estadisticas other.1 = estadisticas st'.
Proof.
  intros Hm Hrules Hpre H1 _.
  assert (Hres : forall tail,
    let other := resolve (set_bloqueos st (pre ++ r1 :: tail)) w request handler in
    other.2 = (resolve st w request handler).2 /\
    logs other.1 = logs (resolve st w request handler).1 /\
    estadisticas other.1 = estadisticas (resolve st w request handler).1).
  { intros tail. unfold resolve. simpl. rewrite Hm, Hrules.
    rewrite !(for_item_winner pre r1) by assumption.
    destruct (String.eqb _ _); [done|]. by destruct (dns_A _). }
  unfold resolve in *. rewrite Hm, Hrules in *.
  rewrite (for_item_winner pre r1) in * by assumption.
  destruct (String.eqb _ _).
  - simpl. rewrite count_hit_lookup.
    repeat split; auto using count_hit_other; intros; apply Hres.
  - destruct (dns_A _); simpl; rewrite count_hit_lookup;
      repeat split; auto using count_hit_other; intros; apply Hres.
Qed.

(** C7. A winning rule whose target is REFUSED in any casing gives a REFUSED
    reply with an empty answer section, its counter goes up by one, and the
    log afterwards is the old log with the entry of this query, whose action
    is "refused @ <pattern>", added at its end and cut to its last 100. *)
Theorem refused_target st w request handler pre r post :
  maintenance_mode st = false ->
  global_bloqueos st = (pre ++ r :: post)%list ->
  Forall (fun r => eligible (qname request) (world_now w) r = false) pre ->
  eligible (qname request) (world_now w) r = true ->
  Str.upper (ip r) = "REFUSED" ->
  let st' := (resolve st w request handler).1 in
  let entry :=
    {| ts := world_ts w;
       client := default "unknown" (client_address handler);
       query := qname request ++ " (" ++ qtype request ++ ")";
       action := "refused @ " ++ pattern r |} in
  (resolve st w request handler).2
    = Returns {| Dns.rcode := Dns.REFUSED; Dns.rr := [] |} /\
  logs st' = drop (length (logs st) + 1 - 100) (logs st ++ [entry]) /\
  last (logs st') = Some entry /\
  estadisticas st' !! pattern r
    = Some (default 0 (estadisticas st !! pattern r) + 1) /\
  forall k, k <> pattern r -> estadisticas st' !! k = estadisticas st !! k.
Proof.
  intros Hm Hrules Hpre He Hip. unfold resolve. rewrite Hm, Hrules.
  rewrite (for_item_winner pre r) by assumption.
  rewrite (strip_refused _ Hip), Hip. simpl.
  rewrite count_hit_lookup, log_append_drop.
  repeat split; [apply last_drop_snoc|]. intros k Hk. by apply count_hit_other.
Qed.

(** C5. The call is not total: when the winning rule's target is neither
    REFUSED nor a string the A record accepts, the exception of the record
    constructor leaves [resolve]; the hit was already counted. *)
Theorem rejected_target_raises st w request handler pre r post e :
  maintenance_mode st = false ->
  global_bloqueos st = (pre ++ r :: post)%list ->
  Forall (fun r => eligible (qname request) (world_now w) r = false) pre ->
  eligible (qname request) (world_now w) r = true ->
  Str.upper (Str.strip (ip r)) <> "REFUSED" ->
  dns_A (Str.strip (ip r)) = Raise e ->
  (resolve st w request handler).2 = Raises e /\
  estadisticas (resolve st w request handler).1
    = count_hit (pattern r) (estadisticas st).
Proof.
  intros Hm Hrules Hpre He Hip HA. unfold resolve. rewrite Hm, Hrules.
  rewrite (for_item_winner pre r) by assumption.
  apply String.eqb_neq in Hip. by rewrite Hip, HA.
Qed.

End Resolver.

(** ** The time window and the matcher *)

(** C3. For every start string, end string and instant, the check of the
    code agrees with the reference definition: an empty or unparsable bound
    leaves the rule active, a window that does not wrap is closed at both
    ends, and a window that wraps past midnight is active from its start on
    and up to its end. *)
Theorem dentro_de_franja_meets_spec (start_str end_str : string) (now : time) :
  dentro_de_franja start_str end_str now = isActive_spec start_str end_str now.
Proof.
  unfold dentro_de_franja, isActive_spec.
  destruct start_str as [|c s]; [reflexivity|].
  destruct end_str as [|d e].
  - rewrite parse_HM_empty. by destruct (Strptime.parse_HM (String c s)).
  - simpl. destruct (Strptime.parse_HM (String c s)); [|reflexivity].
    by destruct (Strptime.parse_HM (String d e)).
Qed.

(** C6, as amended. [matches_pattern] compares the two strings with all of
    their trailing dots removed: any number of dots added at the end of the
    name or of the pattern leaves the result as it was. *)
Theorem matches_pattern_drops_all_trailing_dots {L : Libraries} (name pattern : string) :
  (forall n m,
     matches_pattern (name ++ Str.dots n) (pattern ++ Str.dots m)
     = matches_pattern name pattern) /\
  exists name' pattern' n m,
    name = name' ++ Str.dots n /\ pattern = pattern' ++ Str.dots m /\
    Str.endswith_dot name' = false /\ Str.endswith_dot pattern' = false /\
    matches_pattern name pattern = fnmatch name' pattern'.
Proof.
  split.
  - intros n m. unfold matches_pattern. by rewrite !rstrip_dots_app.
  - destruct (rstrip_dots_decomp name) as [n Hn].
    destruct (rstrip_dots_decomp pattern) as [m Hm].
    exists (Str.rstrip_dots name), (Str.rstrip_dots pattern), n, m.
    auto using endswith_dot_rstrip.
Qed.

(** C6, as stated, fails: with two trailing dots the name still matches the
    dot-free pattern, where stripping a single dot would leave one behind. *)
Lemma single_dot_stripping_refuted :
  matches_pattern (L:=Concrete.lib) "a.." "a" = true /\
  matches_spec (L:=Concrete.lib) "a.." "a" = false.
Proof. split; reflexivity. Qed.

(** ** The activity log *)

Lemma log_append_most_recent (l : list LogEntry) (e : LogEntry) :
  log_append l e = most_recent LOG_LIMIT (l ++ [e]).
Proof.
  unfold log_append, most_recent.
  destruct (Nat.ltb_spec LOG_LIMIT (length (l ++ [e]))) as [Hlt|Hge]; [reflexivity|].
  by replace (length (l ++ [e]) - LOG_LIMIT) with 0 by lia.
Qed.

Lemma length_most_recent {T : Type} (n : nat) (l : list T) :
  length (most_recent n l) = Nat.min n (length l).
Proof. unfold most_recent. rewrite length_drop. lia. Qed.

Lemma log_append_bounded (l : list LogEntry) (e : LogEntry) :
  length (log_append l e) <= LOG_LIMIT.
Proof. rewrite log_append_most_recent, length_most_recent. lia. Qed.

(** Trimming after every append keeps what trimming once at the end keeps. *)
Lemma most_recent_app {T : Type} (n : nat) (l k : list T) :
  most_recent n (most_recent n l ++ k) = most_recent n (l ++ k).
Proof.
  unfold most_recent. rewrite !length_app, length_drop.
  destruct (Nat.le_gt_cases (length l) n) as [Hle|Hgt].
  - replace (length l - n) with 0 by lia. simpl. by rewrite Nat.sub_0_r.
  - replace (length l - (length l - n)) with n by lia.
    rewrite !drop_app, length_drop, drop_drop.
    replace (length l - (length l - n)) with n by lia.
    destruct (Nat.le_gt_cases (length k) n) as [Hk|Hk].
    + f_equal; [f_equal; lia|].
      replace (n + length k - n - n) with 0 by lia.
      by replace (length l + length k - n - length l) with 0 by lia.
    + rewrite !(drop_ge l) by lia. simpl. f_equal. lia.
Qed.

Lemma most_recent_all {T : Type} (n : nat) (l : list T) :
  length l <= n -> most_recent n l = l.
Proof. intros H. unfold most_recent. by replace (length l - n) with 0 by lia. Qed.

Lemma most_recent_app_long {T : Type} (n : nat) (l k : list T) :
  n <= length k -> most_recent n (l ++ k) = most_recent n k.
Proof.
  intros H. unfold most_recent. rewrite length_app, drop_app.
  rewrite drop_ge by lia. simpl. f_equal. lia.
Qed.

Section Traces.

Context {L : Libraries}.

Implicit Types (st : State) (w : World) (request : Request) (handler : Handler).

(** A call that returns has written one entry; a call that raises has
    written none. *)
Lemma resolve_logs st w request handler :
  match (resolve st w request handler).2 with
  | Returns _ =>
      exists action,
        logs (resolve st w request handler).1
        = log_append (logs st) (entry_of w request handler action)
  | Raises _ => logs (resolve st w request handler).1 = logs st
  end.
Proof.
  unfold resolve. destruct (maintenance_mode st); simpl; [by eexists|].
  destruct (for_item _ _ _ _); simpl; [by eexists | reflexivity |].
  destruct (upstream _ _). simpl. by eexists.
Qed.

Lemma resolve_keeps_rules st w request handler :
  global_bloqueos (resolve st w request handler).1 = global_bloqueos st /\
  maintenance_mode (resolve st w request handler).1 = maintenance_mode st.
Proof.
  unfold resolve. destruct (maintenance_mode st); simpl; [done|].
  destruct (for_item _ _ _ _); simpl; [done | done |].
  by destruct (upstream _ _).
Qed.

Lemma resolve_logs_bounded st w request handler :
  length (logs st) <= LOG_LIMIT ->
  length (logs (resolve st w request handler).1) <= LOG_LIMIT.
Proof.
  intros Hb. pose proof (resolve_logs st w request handler) as H.
  destruct ((resolve st w request handler).2).
  - destruct H as [action ->]. apply log_append_bounded.
  - by rewrite H.
Qed.

Lemma step_logs_bounded st op :
  length (logs st) <= LOG_LIMIT -> length (logs (step st op)) <= LOG_LIMIT.
Proof.
  destruct op; simpl; auto using resolve_logs_bounded.
Qed.

Lemma run_logs_bounded st ops :
  length (logs st) <= LOG_LIMIT -> length (logs (run st ops)) <= LOG_LIMIT.
Proof.
  revert st. induction ops as [|op ops IH]; intros st Hb; [exact Hb|].
  simpl. apply IH. by apply step_logs_bounded.
Qed.

(** From start-up on, whatever queries and administrative requests arrive,
    the log holds at most [LOG_LIMIT] entries. *)
Lemma logs_never_exceed_limit bloqueos maintenance ops :
  length (logs (run (startup bloqueos maintenance) ops)) <= LOG_LIMIT.
Proof. apply run_logs_bounded. simpl. unfold LOG_LIMIT. lia. Qed.

(** After a series of calls that all return, the log holds the newest
    [LOG_LIMIT] entries of the old log followed by one entry per call, in the
    order of the calls. *)
Lemma resolve_all_logs calls st :
  length (logs st) <= LOG_LIMIT ->
  Forall (fun o => exists reply, o = Returns reply) (resolve_all st calls).2 ->
  exists entries,
    Forall2 (fun e c => exists action, e = entry_of c.1.1 c.1.2 c.2 action)
      entries calls /\
    logs (resolve_all st calls).1 = most_recent LOG_LIMIT (logs st ++ entries).
Proof.
  revert st. induction calls as [|[[w request] handler] calls IH]; intros st Hb Hret.
  - exists []. split; [constructor|]. simpl. rewrite app_nil_r.
    symmetry. by apply most_recent_all.
  - simpl in *.
    pose proof (resolve_logs st w request handler) as Hlog.
    pose proof (resolve_logs_bounded st w request handler Hb) as Hb1.
    destruct (resolve st w request handler) as [st1 o] eqn:E1. simpl in *.
    destruct (resolve_all st1 calls) as [st2 os] eqn:E2. simpl in *.
    apply Forall_cons in Hret as [[reply ->] Hret].
    destruct Hlog as [action Hlog].
    specialize (IH st1 Hb1). rewrite E2 in IH.
    destruct (IH Hret) as (entries & Hents & Hlogs).
    exists (entry_of w request handler action :: entries). split.
    + constructor; [by exists action | exact Hents].
    + simpl in Hlogs |- *.
      rewrite Hlogs, Hlog, log_append_most_recent, most_recent_app.
      by rewrite <- app_assoc.
Qed.

(** In particular 150 returning calls leave exactly the entries of the last
    100 of them. *)
Lemma eviction_after_150 calls st :
  length (logs st) <= LOG_LIMIT ->
  length calls = 150 ->
  Forall (fun o => exists reply, o = Returns reply) (resolve_all st calls).2 ->
  exists entries,
    Forall2 (fun e c => exists action, e = entry_of c.1.1 c.1.2 c.2 action)
      entries calls /\
    logs (resolve_all st calls).1 = drop 50 entries /\
    length (logs (resolve_all st calls).1) = 100.
Proof.
  intros Hb Hlen Hret.
  destruct (resolve_all_logs calls st Hb Hret) as (entries & Hents & Hlogs).
  exists entries. split; [exact Hents|].
  assert (Hn : length entries = 150) by (by rewrite (Forall2_length _ _ _ Hents)).
  rewrite Hlogs, most_recent_app_long by (unfold LOG_LIMIT; lia).
  unfold most_recent, LOG_LIMIT. rewrite Hn. simpl.
  split; [reflexivity|]. rewrite length_drop. lia.
Qed.

(** ** The rule list under the administrative routes *)

Lemma add_block_appends st form :
  exists item,
    global_bloqueos (add_block st form) = (global_bloqueos st ++ [item])%list /\
    dot_terminated item /\
    pattern item
    = (let pat := Str.strip (form_pattern form) in
       if Str.endswith_dot pat then pat else pat ++ ".").
Proof.
  eexists. split; [reflexivity|]. unfold dot_terminated. simpl.
  destruct (Str.endswith_dot (Str.strip (form_pattern form))) eqn:E; simpl.
  - by split.
  - split; [apply endswith_dot_snoc | reflexivity].
Qed.

Lemma toggle_first_dot_terminated pat items :
  Forall dot_terminated items -> Forall dot_terminated (toggle_first pat items).
Proof.
  induction 1 as [|item items Hi Hrest IH]; simpl; [constructor|].
  destruct (decide _); constructor; auto.
Qed.

Lemma toggle_first_absent pat items :
  Forall (fun item => Some (pattern item) <> pat) items ->
  toggle_first pat items = items.
Proof.
  induction 1 as [|item items Hi _ IH]; simpl; [reflexivity|].
  destruct (decide _); [done | by rewrite IH].
Qed.

Lemma filter_absent pat (items : list Rule) :
  Forall (fun item => Some (pattern item) <> pat) items ->
  filter (fun i => Some (pattern i) <> pat) items = items.
Proof.
  induction 1 as [|item items Hi _ IH]; [reflexivity|].
  rewrite filter_cons_True by exact Hi. by rewrite IH.
Qed.

Lemma step_dot_terminated st op :
  Forall dot_terminated (global_bloqueos st) ->
  Forall dot_terminated (global_bloqueos (step st op)).
Proof.
  intros H. destruct op; unfold step; try exact H.
  - by rewrite (proj1 (resolve_keeps_rules _ _ _ _)).
  - destruct (add_block_appends st form) as (item & -> & Hd & _).
    apply Forall_app. split; [exact H | by constructor].
  - simpl. rewrite Forall_forall in H |- *.
    intros item Hin. apply list_elem_of_filter in Hin as [_ Hin]. by apply H.
  - by apply toggle_first_dot_terminated.
Qed.

Lemma run_dot_terminated st ops :
  Forall dot_terminated (global_bloqueos st) ->
  Forall dot_terminated (global_bloqueos (run st ops)).
Proof.
  revert st. induction ops as [|op ops IH]; intros st H; [exact H|].
  simpl. apply IH. by apply step_dot_terminated.
Qed.

End Traces.

Section Administration.

Context {L : Libraries}.

Lemma set_bloqueos_same (st : State) : set_bloqueos st (global_bloqueos st) = st.
Proof. by destruct st. Qed.

Lemma absent_when_undotted (st : State) (pat : option string) :
  Forall dot_terminated (global_bloqueos st) ->
  (forall p, pat = Some p -> Str.endswith_dot p = false) ->
  Forall (fun item => Some (pattern item) <> pat) (global_bloqueos st).
Proof.
  intros Hdot Hpat. eapply Forall_impl; [exact Hdot|].
  intros item Hi Heq. unfold dot_terminated in Hi.
  rewrite (Hpat (pattern item)) in Hi by done. discriminate.
Qed.

(** C10. [add_block] stores the stripped pattern with a dot appended unless
    it already ends with one, so in every state reached from a dot-terminated
    configuration all stored patterns end with a dot; [remove_block] and
    [toggle_rule] compare the stored pattern with their argument for
    equality, so they leave such a state unchanged unless the argument ends
    with a dot. *)
Theorem admin_patterns_dot_terminated (bloqueos : list Rule) (maintenance : bool)
    (ops : list Op) :
  Forall dot_terminated bloqueos ->
  let st := run (startup bloqueos maintenance) ops in
  (forall form, exists item,
      global_bloqueos (add_block st form) = (global_bloqueos st ++ [item])%list /\
      pattern item
      = (let pat := Str.strip (form_pattern form) in
         if Str.endswith_dot pat then pat else pat ++ ".") /\
      dot_terminated item) /\
  Forall dot_terminated (global_bloqueos st) /\
  forall pat,
    remove_block st pat <> st \/ toggle_rule st pat <> st ->
    exists p, pat = Some p /\ Str.endswith_dot p = true.
Proof.
  intros Hcfg st.
  assert (Hdot : Forall dot_terminated (global_bloqueos st))
    by (by apply run_dot_terminated).
  split; [|split].
  - intros form. destruct (add_block_appends st form) as (item & ? & ? & ?).
    by exists item.
  - exact Hdot.
  - intros pat Hchg.
    destruct pat as [p|]; [destruct (Str.endswith_dot p) eqn:Hp; [by exists p|]|];
      exfalso.
    + assert (Habs := absent_when_undotted st (Some p) Hdot).
      specialize (Habs ltac:(by intros ? [= <-])).
      unfold remove_block, toggle_rule in Hchg.
      rewrite filter_absent, toggle_first_absent, set_bloqueos_same in Hchg
        by exact Habs.
      by destruct Hchg.
    + assert (Habs := absent_when_undotted st None Hdot).
      specialize (Habs ltac:(by intros ? [=])).
      unfold remove_block, toggle_rule in Hchg.
      rewrite filter_absent, toggle_first_absent, set_bloqueos_same in Hchg
        by exact Habs.
      by destruct Hchg.
Qed.

(** Called with a stored pattern, [remove_block] removes every rule that has
    it. *)
Lemma remove_block_removes (st : State) (item : Rule) :
  item ∉ global_bloqueos (remove_block st (Some (pattern item))).
Proof.
  simpl. intros Hin. apply list_elem_of_filter in Hin as [Hne _]. by apply Hne.
Qed.

Implicit Types (st : State) (w : World) (request : Request) (handler : Handler).

(** C8. A call that raises never reaches the log: when the winning rule's
    target is rejected by the A record, the log after the call is the log
    before it, with no entry for the query. *)
Theorem rejected_target_skips_log st w request handler pre r post e :
  maintenance_mode st = false ->
  global_bloqueos st = (pre ++ r :: post)%list ->
  Forall (fun r => eligible (qname request) (world_now w) r = false) pre ->
  eligible (qname request) (world_now w) r = true ->
  Str.upper (Str.strip (ip r)) <> "REFUSED" ->
  dns_A (Str.strip (ip r)) = Raise e ->
  logs (resolve st w request handler).1 = logs st.
Proof.
  intros Hm Hrules Hpre He Hip HA. unfold resolve. rewrite Hm, Hrules.
  rewrite (for_item_winner pre r) by assumption.
  apply String.eqb_neq in Hip. by rewrite Hip, HA.
Qed.

End Administration.

(** ** The properties at sample inputs *)

Lemma maintenance_short_circuit_witness :
  maintenance_mode Demo.closed = true /\
  resolve (L:=Concrete.lib) Demo.closed Demo.world (Demo.ask "x.ads.example.") Demo.peer
  = ({| maintenance_mode := true;
        global_bloqueos := Demo.bloqueos;
        logs := [{| ts := "2024-05-17 12:00:00"; client := "192.0.2.7";
                    query := "x.ads.example. (A)"; action := "maintenance mode" |}];
        estadisticas := ∅ |},
     Returns
       {| Dns.rcode := Dns.NOERROR;
          Dns.rr := [{| Dns.rname := "x.ads.example."; Dns.rtype := Dns.QTXT;
                        Dns.rdata := Dns.TXT "PabloDNS: Estamos en mantenimiento";
                        Dns.ttl := 60 |}] |}).
Proof.
  split; [reflexivity|].
  exact (proj1 (maintenance_short_circuit (L:=Concrete.lib) Demo.closed Demo.world
                  (Demo.ask "x.ads.example.") Demo.peer eq_refl)).
Defined.

Lemma first_match_wins_witness :
  eligible (L:=Concrete.lib) "x.ads.example." Demo.noon (Demo.rule "*.ads.example." "0.0.0.0") = true /\
  eligible (L:=Concrete.lib) "x.ads.example." Demo.noon (Demo.rule "x.ads.example." "REFUSED") = true /\
  let call := resolve (L:=Concrete.lib) Demo.serving Demo.world (Demo.ask "x.ads.example.") Demo.peer in
  estadisticas call.1 !! "*.ads.example." = Some 1 /\
  estadisticas call.1 !! "x.ads.example." = None /\
  call.2 = Returns
             {| Dns.rcode := Dns.NOERROR;
                Dns.rr := [{| Dns.rname := "x.ads.example."; Dns.rtype := Dns.QA;
                              Dns.rdata := Dns.A [0; 0; 0; 0]%Z; Dns.ttl := 60 |}] |}.
Proof.
  split; [reflexivity|]. split; [reflexivity|].
  assert (Hpre : Forall (fun r => eligible (L:=Concrete.lib) "x.ads.example." Demo.noon r = false)
                   [flip_enabled (Demo.rule "*.example." "10.0.0.1")])
    by (repeat constructor).
  pose proof (first_match_wins (L:=Concrete.lib) Demo.serving Demo.world
                (Demo.ask "x.ads.example.") Demo.peer
                [flip_enabled (Demo.rule "*.example." "10.0.0.1")]
                (Demo.rule "*.ads.example." "0.0.0.0")
                [Demo.rule "tracker.*" "Refused"]
                (Demo.rule "x.ads.example." "REFUSED") []
                eq_refl eq_refl Hpre eq_refl eq_refl) as (Hhit & Hrest & Hact & _).
  split; [exact Hhit|]. split; [by rewrite Hrest|]. exact (proj1 Hact).
Defined.

Lemma upstream_fallback_witness :
  Forall (fun r => eligible (L:=Concrete.lib) "openai.com." Demo.noon r = false) Demo.bloqueos /\
  let call := resolve (L:=Concrete.lib) Demo.serving Demo.world (Demo.ask "openai.com.") Demo.peer in
  estadisticas call.1 = ∅ /\
  call.2 = Returns
             {| Dns.rcode := Dns.NOERROR;
                Dns.rr := [{| Dns.rname := "openai.com."; Dns.rtype := Dns.QA;
                              Dns.rdata := Dns.A [104; 18; 33; 45]%Z; Dns.ttl := 60 |}] |} /\
  logs call.1 = [{| ts := "2024-05-17 12:00:00"; client := "192.0.2.7";
                    query := "openai.com. (A)";
                    action := "resolved external 104.18.33.45" |}].
Proof.
  assert (Hnone : Forall (fun r => eligible (L:=Concrete.lib) "openai.com." Demo.noon r = false)
                    Demo.bloqueos) by (repeat constructor).
  split; [exact Hnone|].
  pose proof (upstream_fallback (L:=Concrete.lib) Demo.serving Demo.world
                (Demo.ask "openai.com.") Demo.peer eq_refl Hnone) as [Hest Hact].
  split; [exact Hest|]. split; [exact (proj1 Hact) | exact (proj1 (proj2 Hact))].
Defined.

(** C4, as stated, fails: for the name [a..] the code asks the system
    resolver for [a] and answers with its address, where a lookup of the name
    less one separator, [a.], finds nothing. *)
Lemma single_separator_lookup_refuted :
  let call := resolve (L:=Concrete.lib) (startup [] false) world_of_a (Demo.ask "a..") Demo.peer in
  call.2 = Returns
             {| Dns.rcode := Dns.NOERROR;
                Dns.rr := [{| Dns.rname := "a.."; Dns.rtype := Dns.QA;
                              Dns.rdata := Dns.A [192; 0; 2; 1]%Z; Dns.ttl := 60 |}] |} /\
  action <$> logs call.1 = ["resolved external 192.0.2.1"] /\
  upstream_spec (L:=Concrete.lib) world_of_a "a.."
  = ({| Dns.rcode := Dns.NOERROR; Dns.rr := [] |},
     "error [Errno -2] Name or service not known").
Proof. vm_compute. repeat split. Qed.

Lemma refused_target_witness :
  Str.upper "Refused" = "REFUSED" /\
  let call := resolve (L:=Concrete.lib) Demo.serving Demo.world (Demo.ask "tracker.net.") Demo.peer in
  call.2 = Returns {| Dns.rcode := Dns.REFUSED; Dns.rr := [] |} /\
  logs call.1 = [{| ts := "2024-05-17 12:00:00"; client := "192.0.2.7";
                    query := "tracker.net. (A)"; action := "refused @ tracker.*" |}] /\
  estadisticas call.1 !! "tracker.*" = Some 1.
Proof.
  split; [reflexivity|].
  assert (Hpre : Forall (fun r => eligible (L:=Concrete.lib) "tracker.net." Demo.noon r = false)
                   [flip_enabled (Demo.rule "*.example." "10.0.0.1");
                    Demo.rule "*.ads.example." "0.0.0.0"])
    by (repeat constructor).
  pose proof (refused_target (L:=Concrete.lib) Demo.serving Demo.world
                (Demo.ask "tracker.net.") Demo.peer
                [flip_enabled (Demo.rule "*.example." "10.0.0.1");
                 Demo.rule "*.ads.example." "0.0.0.0"]
                (Demo.rule "tracker.*" "Refused")
                [Demo.rule "x.ads.example." "REFUSED"]
                eq_refl eq_refl Hpre eq_refl eq_refl) as (Hout & Hlog & _ & Hhit & _).
  split; [exact Hout|]. split; [exact Hlog | exact Hhit].
Defined.

Lemma rejected_target_raises_witness :
  dns_A (Libraries:=Concrete.lib) "bad" = Raise "invalid literal for int() with base 10: 'bad'" /\
  (resolve (L:=Concrete.lib) Demo.mistyped Demo.world (Demo.ask "ads.example.") Demo.peer).2
  = Raises "invalid literal for int() with base 10: 'bad'".
Proof.
  split; [reflexivity|].
  refine (proj1 (rejected_target_raises (L:=Concrete.lib) Demo.mistyped Demo.world
                   (Demo.ask "ads.example.") Demo.peer []
                   {| pattern := "ads.example."; ip := "bad"; start := Some "00:00";
                      end_ := Some "23:59"; enabled := Some true |} []
                   _ eq_refl eq_refl (List.Forall_nil _) eq_refl _ eq_refl)).
  discriminate.
Defined.

Lemma rejected_target_skips_log_witness :
  global_bloqueos Demo.sinkholed
  = [{| pattern := "*.tracker.net."; ip := "sinkhole"; start := Some "00:00";
        end_ := Some "23:59"; enabled := Some true |}] /\
  logs (resolve (L:=Concrete.lib) Demo.sinkholed Demo.world (Demo.ask "a.tracker.net.") Demo.peer).1
  = [].
Proof.
  split; [reflexivity|].
  refine (rejected_target_skips_log (L:=Concrete.lib) Demo.sinkholed Demo.world
            (Demo.ask "a.tracker.net.") Demo.peer []
            {| pattern := "*.tracker.net."; ip := "sinkhole"; start := Some "00:00";
               end_ := Some "23:59"; enabled := Some true |} []
            _ eq_refl eq_refl (List.Forall_nil _) eq_refl _ eq_refl).
  discriminate.
Defined.

Lemma admin_patterns_dot_terminated_witness :
  Forall dot_terminated
    (global_bloqueos
       (run (L:=Concrete.lib) (startup [] false)
          [AddBlock (Demo.form "ads.example" "0.0.0.0");
           Resolve Demo.world (Demo.ask "ads.example.") Demo.peer;
           ToggleRule (Some "ads.example");
           AddBlock (Demo.form "*.tracker.net." "REFUSED")])).
Proof.
  exact (proj1 (proj2 (admin_patterns_dot_terminated (L:=Concrete.lib) [] false
                         [AddBlock (Demo.form "ads.example" "0.0.0.0");
                          Resolve Demo.world (Demo.ask "ads.example.") Demo.peer;
                          ToggleRule (Some "ads.example");
                          AddBlock (Demo.form "*.tracker.net." "REFUSED")]
                         (List.Forall_nil _)))).
Defined.

(** ** Worked examples of the specification *)

Example parse_2200 : Strptime.parse_HM "22:00" = Some (mk_time 22 0 0 0).
Proof. reflexivity. Qed.

Example parse_single_digits : Strptime.parse_HM "7:5" = Some (mk_time 7 5 0 0).
Proof. reflexivity. Qed.

Example parse_rejects :
  Strptime.parse_HM "24:00" = None /\ Strptime.parse_HM "12:60" = None /\
  Strptime.parse_HM "12:345" = None /\ Strptime.parse_HM " 12:30" = None /\
  Strptime.parse_HM "bad" = None.
Proof. repeat split. Qed.

(** A window from 22:00 to 06:00 is active at 23:30 and at 02:00, not at
    noon. *)
Example window_wraps_midnight :
  dentro_de_franja "22:00" "06:00" (mk_time 23 30 0 0) = true /\
  dentro_de_franja "22:00" "06:00" (mk_time 2 0 0 0) = true /\
  dentro_de_franja "22:00" "06:00" (mk_time 12 0 0 0) = false.
Proof. repeat split. Qed.

(** The end of a window is its last instant: one microsecond later the rule
    is off. *)
Example window_closed_at_both_ends :
  dentro_de_franja "09:00" "17:00" (mk_time 9 0 0 0) = true /\
  dentro_de_franja "09:00" "17:00" (mk_time 17 0 0 0) = true /\
  dentro_de_franja "09:00" "17:00" (mk_time 17 0 0 1) = false /\
  dentro_de_franja "09:00" "17:00" (mk_time 8 59 59 999999) = false.
Proof. repeat split. Qed.

(** The long s has S as its upper case, so a target spelled with it is
    REFUSED for the code. *)
Example long_s_counts_as_refused :
  Str.upper "refuſed" = "REFUSED" /\ Str.strip "refuſed" = "refuſed".
Proof. split; reflexivity. Qed.

Lemma malformed_start_always_active (end_str : string) (now : time) :
  dentro_de_franja "bad" end_str now = true.
Proof. reflexivity. Qed.

(** A disabled rule is skipped wherever it stands in the list. *)
Lemma disabled_rule_ignored {L : Libraries} (pre post : list Rule) (r : Rule)
    (domain : string) (now : time) (est : gmap string nat) :
  enabled r = Some false ->
  for_item (pre ++ r :: post) domain now est = for_item (pre ++ post) domain now est.
Proof.
  intros Hoff. induction pre as [|item pre IH].
  - simpl. by rewrite Hoff.
  - rewrite <- !app_comm_cons. simpl. rewrite IH.
    destruct (negb _); [reflexivity|].
    destruct (matches_pattern _ _); reflexivity.
Qed.

Example redirect_example :
  let st := startup [Demo.rule "*.ads.example." "0.0.0.0"] false in
  let call := resolve (L:=Concrete.lib) st Demo.world (Demo.ask "x.ads.example.") Demo.peer in
  call.2 = Returns
             {| Dns.rcode := Dns.NOERROR;
                Dns.rr := [{| Dns.rname := "x.ads.example."; Dns.rtype := Dns.QA;
                              Dns.rdata := Dns.A [0; 0; 0; 0]%Z; Dns.ttl := 60 |}] |} /\
  estadisticas call.1 !! "*.ads.example." = Some 1 /\
  action <$> logs call.1 = ["redirect to 0.0.0.0 @ *.ads.example."].
Proof. vm_compute. repeat split. Qed.

Example external_example :
  let st := startup [Demo.rule "*.ads.example." "0.0.0.0"] false in
  let call := resolve (L:=Concrete.lib) st Demo.world (Demo.ask "openai.com.") Demo.peer in
  call.2 = Returns
             {| Dns.rcode := Dns.NOERROR;
                Dns.rr := [{| Dns.rname := "openai.com."; Dns.rtype := Dns.QA;
                              Dns.rdata := Dns.A [104; 18; 33; 45]%Z; Dns.ttl := 60 |}] |} /\
  estadisticas call.1 = ∅ /\
  action <$> logs call.1 = ["resolved external 104.18.33.45"].
Proof. vm_compute. repeat split. Qed.

Example unknown_host_example :
  let st := startup [] false in
  let call := resolve (L:=Concrete.lib) st Demo.world (Demo.ask "nowhere.invalid.") Demo.peer in
  call.2 = Returns {| Dns.rcode := Dns.NOERROR; Dns.rr := [] |} /\
  action <$> logs call.1 = ["error [Errno -2] Name or service not known"].
Proof. vm_compute. repeat split. Qed.

(** Switching maintenance on between two queries changes the answer to the
    second one. *)
Example maintenance_toggled_mid_run :
  let st0 := startup [Demo.rule "*.ads.example." "0.0.0.0"] false in
  let q := Resolve Demo.world (Demo.ask "x.ads.example.") Demo.peer in
  let st := run (L:=Concrete.lib) st0 [q; ToggleMaintenance; q] in
  action <$> logs st
  = ["redirect to 0.0.0.0 @ *.ads.example."; "maintenance mode"] /\
  estadisticas st !! "*.ads.example." = Some 1.
Proof. vm_compute. repeat split. Qed.

(** The same rule is removed by its stored, dot-terminated pattern only. *)
Example remove_needs_the_dot :
  let st := add_block (startup [] false) (Demo.form "ads.example" "0.0.0.0") in
  remove_block st (Some "ads.example") = st /\
  global_bloqueos (remove_block st (Some "ads.example.")) = [].
Proof. vm_compute. repeat split. Qed.

(** * Further properties of the code *)

(** ** The resolver, case by case *)

Section ResolverCases.

Context {L : Libraries}.

Implicit Types (st : State) (w : World) (request : Request) (handler : Handler).

(** Either no rule is eligible, or the list splits at the first one that is. *)
Lemma first_eligible_split (items : list Rule) (domain : string) (now : time) :
  Forall (fun r => eligible domain now r = false) items \/
  exists pre r post,
    items = (pre ++ r :: post)%list /\
    Forall (fun r => eligible domain now r = false) pre /\
    eligible domain now r = true.
Proof.
  induction items as [|item items IH]; [by left|].
  destruct (eligible domain now item) eqn:He.
  - right. exists [], item, items. by repeat split.
  - destruct IH as [Hnone|(pre & r & post & -> & Hpre & Hr)].
    + left. by constructor.
    + right. exists (item :: pre), r, post. repeat split; [|exact Hr]. by constructor.
Qed.

Lemma exists_eligible_split (items : list Rule) (domain : string) (now : time) :
  Exists (fun r => eligible domain now r = true) items ->
  exists pre r post,
    items = (pre ++ r :: post)%list /\
    Forall (fun r => eligible domain now r = false) pre /\
    eligible domain now r = true.
Proof.
  intros Hex. destruct (first_eligible_split items domain now) as [Hnone|H]; [|exact H].
  apply Exists_exists in Hex as (r & Hin & Hr).
  rewrite Forall_forall in Hnone. rewrite (Hnone r Hin) in Hr. discriminate.
Qed.

(** X1. On a rule list whose entries all have ['pattern'] and ['ip'] as
    strings, [resolve] raises in one situation only: maintenance is off and
    the first eligible rule has a target that is not REFUSED (after stripping,
    in any casing) and that the A record rejects; the exception is the
    record's.  In every other situation it returns a reply. *)
Theorem resolve_raises_iff st w request handler e :
  (resolve st w request handler).2 = Raises e <->
  maintenance_mode st = false /\
  exists pre r post,
    global_bloqueos st = (pre ++ r :: post)%list /\
    Forall (fun r => eligible (qname request) (world_now w) r = false) pre /\
    eligible (qname request) (world_now w) r = true /\
    Str.upper (Str.strip (ip r)) <> "REFUSED" /\
    dns_A (Str.strip (ip r)) = Raise e.
Proof.
  split.
  - unfold resolve. destruct (maintenance_mode st); [discriminate|].
    intros H. split; [reflexivity|].
    destruct (first_eligible_split (global_bloqueos st) (qname request) (world_now w))
      as [Hnone|(pre & r & post & Hsplit & Hpre & Hr)].
    + rewrite for_item_exhausted in H by exact Hnone.
      by destruct (upstream w (qname request)).
    + exists pre, r, post. rewrite Hsplit in H |- *.
      rewrite (for_item_winner pre r) in H by assumption.
      destruct (String.eqb_spec (Str.upper (Str.strip (ip r))) "REFUSED") as [|Hne];
        [discriminate|].
      destruct (dns_A (Str.strip (ip r))) as [a|e'] eqn:HA; [discriminate|].
      simpl in H. injection H as ->. by repeat split.
  - intros (Hm & pre & r & post & Hsplit & Hpre & Hr & Hne & HA).
    unfold resolve. rewrite Hm, Hsplit, (for_item_winner pre r) by assumption.
    apply String.eqb_neq in Hne. by rewrite Hne, HA.
Qed.

(** X2. Whatever a call does, returning or raising, it leaves the rule list
    and the maintenance flag as they were. *)
Theorem resolve_never_edits_rules st w request handler :
  global_bloqueos (resolve st w request handler).1 = global_bloqueos st /\
  maintenance_mode (resolve st w request handler).1 = maintenance_mode st.
Proof.
  unfold resolve. destruct (maintenance_mode st) eqn:Hm; simpl; [done|].
  destruct (for_item (global_bloqueos st) (qname request) (world_now w)
              (estadisticas st)) as [est reply action|est e|]; simpl;
    [done | done |].
  by destruct (upstream w (qname request)) as [reply action].
Qed.

(** X3. One call moves at most one counter: either the counters are
    unchanged, or exactly the counter of the pattern of one eligible rule of
    the list went up by one. *)
Theorem resolve_counts_one_hit st w request handler :
  estadisticas (resolve st w request handler).1 = estadisticas st \/
  exists r,
    r ∈ global_bloqueos st /\
    eligible (qname request) (world_now w) r = true /\
    estadisticas (resolve st w request handler).1
    = <[pattern r := default 0 (estadisticas st !! pattern r) + 1]> (estadisticas st).
Proof.
  unfold resolve. destruct (maintenance_mode st); [by left|].
  destruct (first_eligible_split (global_bloqueos st) (qname request) (world_now w))
    as [Hnone|(pre & r & post & Hsplit & Hpre & Hr)].
  - left. rewrite for_item_exhausted by exact Hnone.
    by destruct (upstream w (qname request)).
  - right. exists r. split; [rewrite Hsplit; set_solver|]. split; [exact Hr|].
    rewrite Hsplit, (for_item_winner pre r) by assumption.
    destruct (String.eqb _ _); [reflexivity|]. by destruct (dns_A _).
Qed.

(** X4. A disabled rule has no effect wherever it stands: the call gives the
    same outcome, log and counters as on the list without it. *)
Theorem disabled_rule_never_matters st w request handler pre r post :
  global_bloqueos st = (pre ++ r :: post)%list ->
  enabled r = Some false ->
  let with_it := resolve st w request handler in
  let without := resolve (set_bloqueos st (pre ++ post)) w request handler in
  with_it.2 = without.2 /\
  logs with_it.1 = logs without.1 /\
  estadisticas with_it.1 = estadisticas without.1.
Proof.
  intros Hsplit Hoff. unfold resolve. simpl.
  rewrite Hsplit, (disabled_rule_ignored pre post r) by exact Hoff.
  destruct (maintenance_mode st); [done|].
  destruct (for_item _ _ _ _); [done | done |].
  by destruct (upstream _ _).
Qed.

(** X5. The system resolver is consulted only when maintenance is off and
    no rule is eligible: otherwise the call gives the same result whatever
    [gethostbyname] would answer. *)
Theorem upstream_not_consulted st w request handler (answer : string -> result string) :
  maintenance_mode st = true \/
  Exists (fun r => eligible (qname request) (world_now w) r = true) (global_bloqueos st) ->
  resolve st
    {| world_ts := world_ts w; world_now := world_now w; gethostbyname := answer |}
    request handler
  = resolve st w request handler.
Proof.
  intros [Hm|Hex]; unfold resolve; simpl.
  - by rewrite Hm.
  - destruct (maintenance_mode st); [reflexivity|].
    apply exists_eligible_split in Hex as (pre & r & post & -> & Hpre & Hr).
    rewrite (for_item_winner pre r) by assumption.
    destruct (String.eqb _ _); [reflexivity|]. by destruct (dns_A _).
Qed.

(** X6. The target is compared with REFUSED after [strip()] and [upper()]:
    white space around it and its casing do not matter.  The reply is
    REFUSED with no records, the counter of the pattern goes up by one, the
    entry with the action "refused @ <pattern>" is added at the end of the log,
    and the A record is not built, so the call returns even for a library
    that would reject the text. *)
Theorem refused_after_strip st w request handler pre r post :
  maintenance_mode st = false ->
  global_bloqueos st = (pre ++ r :: post)%list ->
  Forall (fun r => eligible (qname request) (world_now w) r = false) pre ->
  eligible (qname request) (world_now w) r = true ->
  Str.upper (Str.strip (ip r)) = "REFUSED" ->
  resolve st w request handler =
    ({| maintenance_mode := false;
        global_bloqueos := global_bloqueos st;
        logs := drop (length (logs st) + 1 - 100)
                  (logs st ++
                   [{| ts := world_ts w;
                       client := default "unknown" (client_address handler);
                       query := qname request ++ " (" ++ qtype request ++ ")";
                       action := "refused @ " ++ pattern r |}]);
        estadisticas :=
          <[pattern r := default 0 (estadisticas st !! pattern r) + 1]>
            (estadisticas st) |},
     Returns {| Dns.rcode := Dns.REFUSED; Dns.rr := [] |}).
Proof.
  intros Hm Hsplit Hpre Hr Hip. unfold resolve.
  rewrite Hm. rewrite Hsplit at 1. rewrite (for_item_winner pre r) by assumption.
  rewrite Hip. simpl. by rewrite log_append_drop.
Qed.

(** X7. A rule appended by [add_block] has the lowest precedence: when some
    stored rule is already eligible for a query, adding a rule changes
    neither the outcome of that query nor what it logs and counts. *)
Theorem added_rule_yields_to_older st w request handler form :
  Exists (fun r => eligible (qname request) (world_now w) r = true) (global_bloqueos st) ->
  let before := resolve st w request handler in
  let after := resolve (add_block st form) w request handler in
  after.2 = before.2 /\
  logs after.1 = logs before.1 /\
  estadisticas after.1 = estadisticas before.1.
Proof.
  intros Hex. unfold resolve. simpl.
  destruct (maintenance_mode st); [done|].
  apply exists_eligible_split in Hex as (pre & r & post & -> & Hpre & Hr).
  rewrite <- app_assoc, <- app_comm_cons.
  rewrite !(for_item_winner pre r) by assumption.
  destruct (String.eqb _ _); [done|]. by destruct (dns_A _).
Qed.

(** X8. After [reset_stats], the first query that a rule decides leaves
    exactly one counter, equal to one; the reset itself touches neither the
    rules, the flag nor the log. *)
Theorem first_hit_after_reset st w request handler pre r post :
  maintenance_mode st = false ->
  global_bloqueos st = (pre ++ r :: post)%list ->
  Forall (fun r => eligible (qname request) (world_now w) r = false) pre ->
  eligible (qname request) (world_now w) r = true ->
  estadisticas (resolve (reset_stats st) w request handler).1 = {[ pattern r := 1 ]} /\
  global_bloqueos (reset_stats st) = global_bloqueos st /\
  maintenance_mode (reset_stats st) = maintenance_mode st /\
  logs (reset_stats st) = logs st.
Proof.
  intros Hm Hsplit Hpre Hr. split; [|done].
  unfold resolve. simpl. rewrite Hm, Hsplit, (for_item_winner pre r) by assumption.
  destruct (String.eqb _ _); [reflexivity|]. by destruct (dns_A _).
Qed.

End ResolverCases.

(** ** Edges of the time window *)

Lemma time_cmp_eq (a b : time) : time_cmp a b = Eq -> a = b.
Proof.
  destruct a as [h1 m1 s1 u1], b as [h2 m2 s2 u2]. unfold time_cmp. simpl.
  destruct (Z.compare_spec h1 h2); try discriminate.
  destruct (Z.compare_spec m1 m2); try discriminate.
  destruct (Z.compare_spec s1 s2); try discriminate.
  destruct (Z.compare_spec u1 u2); try discriminate.
  by subst.
Qed.

Lemma time_cmp_antisym (a b : time) : time_cmp b a = CompOpp (time_cmp a b).
Proof.
  unfold time_cmp.
  rewrite (Z.compare_antisym (hour a) (hour b)).
  rewrite (Z.compare_antisym (minute a) (minute b)).
  rewrite (Z.compare_antisym (second a) (second b)).
  rewrite (Z.compare_antisym (microsecond a) (microsecond b)).
  destruct (hour a ?= hour b)%Z, (minute a ?= minute b)%Z,
    (second a ?= second b)%Z, (microsecond a ?= microsecond b)%Z; reflexivity.
Qed.

Lemma time_le_antisym (a b : time) :
  time_le a b = true -> time_le b a = true -> a = b.
Proof.
  unfold time_le. rewrite (time_cmp_antisym a b).
  destruct (time_cmp a b) eqn:E; simpl; try discriminate.
  intros _ _. by apply time_cmp_eq.
Qed.

Lemma midnight_first (now : time) :
  valid_time now -> time_le (mk_time 0 0 0 0) now = true.
Proof.
  destruct now as [h m s u]. intros (Hh & Hm & Hs & Hu). simpl in *.
  unfold time_le, time_cmp. simpl.
  destruct h; [|reflexivity|lia]. destruct m; [|reflexivity|lia].
  destruct s; [|reflexivity|lia]. destruct u; [reflexivity|reflexivity|lia].
Qed.

(** X9. A window that does not wrap ends with the first instant of its end
    minute: any other instant of that minute is outside, because the parsed
    bound has no seconds while the clock has. *)
Theorem window_ends_with_first_instant (start_str end_str : string) (a b now : time) :
  Strptime.parse_HM start_str = Some a ->
  Strptime.parse_HM end_str = Some b ->
  time_le a b = true ->
  valid_time now ->
  hour now = hour b -> minute now = minute b -> now <> b ->
  dentro_de_franja start_str end_str now = false.
Proof.
  intros Ha Hb Hab (_ & _ & Hs & Hu) Hh Hm Hne.
  apply parse_HM_range in Hb as Hrange. destruct Hrange as (_ & _ & Hs0 & Hu0).
  unfold dentro_de_franja. rewrite Ha, Hb, Hab.
  assert (Hlate : time_le now b = false).
  { unfold time_le, time_cmp. rewrite Hh, Hm, !Z.compare_refl, Hs0, Hu0.
    destruct (Z.compare_spec (second now) 0) as [Hs1| |]; [|lia|reflexivity].
    destruct (Z.compare_spec (microsecond now) 0) as [Hu1| |]; [|lia|reflexivity].
    exfalso. apply Hne. destruct now, b. simpl in *. by subst. }
  by rewrite Hlate, andb_false_r.
Qed.

(** X10. A rule posted without times gets the window 00:00-23:59, which is
    not the whole day: the stored rule is active up to 23:59:00 sharp and off
    for the rest of the last minute. *)
Theorem default_window_is_not_all_day (st : State) (form : AddForm) (now : time)
    (item : Rule) :
  form_start form = None -> form_end form = None ->
  valid_time now ->
  last (global_bloqueos (add_block st form)) = Some item ->
  (time_active now item = true <-> time_le now (mk_time 23 59 0 0) = true).
Proof.
  intros Hs He Hnow Hlast. unfold add_block in Hlast. simpl in Hlast.
  rewrite last_snoc in Hlast. injection Hlast as <-.
  unfold time_active. simpl. rewrite Hs, He. simpl.
  change (dentro_de_franja "00:00" "23:59" now)
    with (time_le (mk_time 0 0 0 0) now && time_le now (mk_time 23 59 0 0))%bool.
  rewrite (midnight_first now Hnow). simpl.
  by rewrite negb_involutive.
Qed.

(** X11. A window whose two bounds are the same text is active at one
    instant only, the parsed minute at second zero. *)
Theorem equal_bounds_single_instant (bound : string) (t now : time) :
  Strptime.parse_HM bound = Some t ->
  (dentro_de_franja bound bound now = true <-> now = t).
Proof.
  intros Ht. unfold dentro_de_franja. rewrite Ht, time_le_refl.
  rewrite andb_true_iff. split.
  - intros [H1 H2]. symmetry. by apply time_le_antisym.
  - intros ->. by rewrite time_le_refl.
Qed.

(** ** The rule list under the routes, continued *)

Lemma stored_pattern_add_block (st : State) (form : AddForm) :
  global_bloqueos (add_block st form)
  = (global_bloqueos st ++
     [{| pattern := stored_pattern (form_pattern form);
         ip := Str.strip (form_ip form);
         start := Some (default "00:00" (form_start form));
         end_ := Some (default "23:59" (form_end form));
         enabled := Some true |}])%list.
Proof. reflexivity. Qed.

(** X12. Removing the pattern a rule was stored under undoes [add_block],
    together with every older rule of the same pattern: the result is what
    the removal gives on the list before the addition, and the state before
    the addition itself when no older rule had that pattern. *)
Theorem remove_after_add (st : State) (form : AddForm) :
  let pat := Some (stored_pattern (form_pattern form)) in
  remove_block (add_block st form) pat = remove_block st pat /\
  (Forall (fun item => pattern item <> stored_pattern (form_pattern form))
     (global_bloqueos st) ->
   remove_block (add_block st form) pat = st).
Proof.
  assert (Heq : remove_block (add_block st form) (Some (stored_pattern (form_pattern form)))
                = remove_block st (Some (stored_pattern (form_pattern form)))).
  { unfold remove_block. rewrite stored_pattern_add_block, filter_app.
    rewrite filter_cons_False, filter_nil, app_nil_r by (simpl; auto).
    reflexivity. }
  split; [exact Heq|].
  intros Hfresh. simpl. rewrite Heq. unfold remove_block.
  rewrite filter_absent; [apply set_bloqueos_same|].
  eapply Forall_impl; [exact Hfresh|]. intros item Hne [= Heq']. by apply Hne.
Qed.

Lemma flip_enabled_twice_default (item : Rule) :
  default true (enabled (flip_enabled (flip_enabled item))) = default true (enabled item).
Proof. simpl. by rewrite negb_involutive. Qed.

Lemma for_item_toggle_twice {L : Libraries} (pat : option string) (items : list Rule)
    (domain : string) (now : time) (est : gmap string nat) :
  for_item (toggle_first pat (toggle_first pat items)) domain now est
  = for_item items domain now est.
Proof.
  induction items as [|item items IH]; [reflexivity|].
  simpl. destruct (decide (Some (pattern item) = pat)) as [Heq|Hne].
  - simpl. rewrite decide_True by exact Heq. simpl. by rewrite negb_involutive.
  - simpl. rewrite decide_False by exact Hne. simpl. by rewrite IH.
Qed.

Lemma toggle_first_twice (pat : option string) (items : list Rule) :
  Forall (fun item => is_Some (enabled item)) items ->
  toggle_first pat (toggle_first pat items) = items.
Proof.
  induction 1 as [|item items [b Hb] _ IH]; [reflexivity|].
  simpl. destruct (decide (Some (pattern item) = pat)) as [Heq|Hne].
  - simpl. rewrite decide_True by exact Heq.
    destruct item as [p i s e en]. simpl in *. subst en.
    unfold flip_enabled. simpl. by rewrite negb_involutive.
  - simpl. rewrite decide_False by exact Hne. by rewrite IH.
Qed.

Lemma toggle_first_split (pat : option string) (items : list Rule) :
  (Forall (fun item => Some (pattern item) <> pat) items /\
   toggle_first pat items = items) \/
  exists pre item post,
    items = (pre ++ item :: post)%list /\
    Forall (fun item => Some (pattern item) <> pat) pre /\
    Some (pattern item) = pat /\
    toggle_first pat items = (pre ++ flip_enabled item :: post)%list.
Proof.
  induction items as [|item items IH]; [by left|].
  simpl. destruct (decide (Some (pattern item) = pat)) as [Heq|Hne].
  - right. exists [], item, items. by repeat split.
  - destruct IH as [[Hnone Hsame]|(pre & it & post & -> & Hpre & Hit & Htog)].
    + left. split; [by constructor | by rewrite Hsame].
    + right. exists (item :: pre), it, post. rewrite Htog.
      repeat split; [by constructor | exact Hit].
Qed.

(** X13. Toggling the same pattern twice gives back the behaviour: every
    query has the same outcome, log and counters as before the two toggles;
    and when the rules all carry the key ['enabled'] the state itself is
    restored. *)
Theorem toggle_twice_restores {L : Libraries} (st : State) (pat : option string) :
  let twice := toggle_rule (toggle_rule st pat) pat in
  (forall w request handler,
     (resolve twice w request handler).2 = (resolve st w request handler).2 /\
     logs (resolve twice w request handler).1 = logs (resolve st w request handler).1 /\
     estadisticas (resolve twice w request handler).1
     = estadisticas (resolve st w request handler).1) /\
  (Forall (fun item => is_Some (enabled item)) (global_bloqueos st) -> twice = st).
Proof.
  split.
  - intros w request handler. unfold resolve. simpl.
    rewrite for_item_toggle_twice.
    destruct (maintenance_mode st); [done|].
    destruct (for_item _ _ _ _); [done | done |]. by destruct (upstream _ _).
  - intros Hkeys. unfold toggle_rule, set_bloqueos. simpl.
    rewrite toggle_first_twice by exact Hkeys. by destruct st.
Qed.

Lemma toggle_first_at (pat : option string) (pre post : list Rule) (item : Rule) :
  Forall (fun item => Some (pattern item) <> pat) pre ->
  Some (pattern item) = pat ->
  toggle_first pat (pre ++ item :: post)
  = (pre ++ {| pattern := pattern item; ip := ip item; start := start item;
               end_ := end_ item;
               enabled := Some (negb (default true (enabled item))) |} :: post)%list.
Proof.
  intros Hpre Hit. induction Hpre as [|x pre Hx _ IH]; simpl.
  - by rewrite decide_True by exact Hit.
  - rewrite decide_False by exact Hx. by rewrite IH.
Qed.

(** X14. [toggle_rule] stops at the first rule that has the pattern.  When
    no rule has it the state is unchanged.  Otherwise the first such rule gets
    ['enabled'] set to the opposite of what it counted as (a missing key
    counts as True) and keeps its other keys; every other rule, later ones of
    the same pattern included, and the rest of the state stay as they are. *)
Theorem toggle_rule_first_only (st : State) (pat : option string) :
  (Forall (fun item => Some (pattern item) <> pat) (global_bloqueos st) ->
   toggle_rule st pat = st) /\
  forall pre item post,
    global_bloqueos st = (pre ++ item :: post)%list ->
    Forall (fun item => Some (pattern item) <> pat) pre ->
    Some (pattern item) = pat ->
    toggle_rule st pat =
      {| maintenance_mode := maintenance_mode st;
         global_bloqueos :=
           pre ++ {| pattern := pattern item; ip := ip item; start := start item;
                     end_ := end_ item;
                     enabled := Some (negb (default true (enabled item))) |} :: post;
         logs := logs st;
         estadisticas := estadisticas st |}.
Proof.
  split.
  - intros Hnone. unfold toggle_rule.
    rewrite toggle_first_absent by exact Hnone. apply set_bloqueos_same.
  - intros pre item post Hsplit Hpre Hit. unfold toggle_rule, set_bloqueos.
    by rewrite Hsplit, toggle_first_at.
Qed.

(** ** The dashboard *)

Section Dashboard.

Import Web.

(** A property of every answer follows from the three answers given without
    a view and from the views of the URL map. *)
Lemma handle_ind
    (P : Server -> Session -> HttpRequest -> Server * Session * Response -> Prop) :
  (forall srv sess req status, P srv sess req (srv, sess, Abort status)) ->
  (forall srv sess req, P srv sess req (srv, sess, AutoOptions)) ->
  Forall (fun r : string * list Method * View =>
            forall srv sess req,
              req_path req = r.1.1 ->
              allowed r.1.2 (req_method req) = true ->
              req_method req <> OPTIONS ->
              P srv sess req (r.2 srv sess req)) routes ->
  forall srv sess req, P srv sess req (handle srv sess req).
Proof.
  intros Habort Hopt Hviews srv sess req. unfold handle.
  destruct (List.find _ routes) as [[[path declared] view]|] eqn:Hfind; [|apply Habort].
  apply List.find_some in Hfind as [Hin Hpath]. simpl in Hpath.
  apply String.eqb_eq in Hpath.
  destruct (allowed declared (req_method req)) eqn:Hallowed; [|apply Habort].
  destruct (method_eqb (req_method req) OPTIONS) eqn:Hm; [apply Hopt|].
  rewrite Forall_forall in Hviews.
  apply (Hviews (path, declared, view)); simpl; auto.
  - by apply list_elem_of_In.
  - intros Heq. rewrite Heq in Hm. discriminate.
Qed.

Ltac by_cases :=
  repeat match goal with
         | |- context [match ?x with _ => _ end] => destruct x eqn:?; simpl
         end.

Ltac through_views P :=
  apply (handle_ind P);
  [ intros srv sess req status; cbv beta
  | intros srv sess req; cbv beta
  | repeat (apply Forall_cons; split); [..| apply Forall_nil; exact I];
    intros srv sess req Hpath Hallowed Hmethod; cbv beta; cbn [fst snd];
    simpl in Hpath, Hallowed;
    unfold login, logout, index, toggle_maintenance, add_block, remove_block,
      toggle_rule, reset_stats, download, login_required, render ].

Lemma handle_logged_out (srv : Server) (sess : Session) (req : HttpRequest) :
  logged_in sess = false ->
  (handle srv sess req).1.1 = srv /\
  (logged_in (handle srv sess req).1.2 = true -> presents_credentials req).
Proof.
  revert srv sess req.
  through_views (fun srv sess req (out : Server * Session * Response) =>
                   logged_in sess = false ->
                   out.1.1 = srv /\ (logged_in out.1.2 = true -> presents_credentials req));
    intros Hout; simpl; rewrite ?Hout; simpl;
    try (split; [reflexivity | congruence]).
  unfold presents_credentials.
  destruct (req_method req) eqn:Hm; simpl; rewrite ?Hout;
    try (split; [reflexivity | congruence]).
  destruct (req_form req !! "username") as [username|] eqn:Hu; simpl;
    [|split; [reflexivity | congruence]].
  destruct (String.eqb_spec username ADMIN_USER) as [->|]; simpl; rewrite ?Hout;
    [|split; [reflexivity | congruence]].
  destruct (req_form req !! "password") as [password|] eqn:Hp; simpl;
    [|split; [reflexivity | congruence]].
  destruct (String.eqb_spec password ADMIN_PASS) as [->|]; simpl; rewrite ?Hout;
    [|split; [reflexivity | congruence]].
  by repeat split.
Qed.

Lemma handle_credentials (srv : Server) (sess : Session) (req : HttpRequest) :
  presents_credentials req -> logged_in (handle srv sess req).1.2 = true.
Proof.
  intros (Hpath & Hm & Hu & Hp). unfold handle. rewrite Hpath, Hm. simpl.
  unfold login. by rewrite Hm, Hu, Hp.
Qed.

(** X15. A request whose session is not logged in changes nothing in the
    process, whatever its path, method, form and arguments: rules, flag,
    counters, log, dictionary and file stay as they were. *)
Theorem logged_out_request_changes_nothing (srv : Server) (sess : Session)
    (req : HttpRequest) :
  logged_in sess = false -> (handle srv sess req).1.1 = srv.
Proof.
  revert srv sess req.
  through_views (fun srv sess (_ : HttpRequest) (out : Server * Session * Response) =>
                   logged_in sess = false -> out.1.1 = srv);
    intros Hout; simpl; rewrite ?Hout; try reflexivity.
  by_cases; reflexivity.
Qed.

(** X16. A session that is not logged in becomes logged in by one request
    only: a POST to /login whose form carries the administrator's name and
    password. *)
Theorem login_needs_credentials (srv : Server) (sess : Session) (req : HttpRequest) :
  logged_in sess = false ->
  (logged_in (handle srv sess req).1.2 = true <-> presents_credentials req).
Proof.
  intros Hout. split; [by apply handle_logged_out | apply handle_credentials].
Qed.

Lemma browse_logged_out (reqs : list HttpRequest) (srv : Server) (sess : Session) :
  logged_in sess = false ->
  Forall (fun req => ~ presents_credentials req) reqs ->
  (browse srv sess reqs).1 = srv /\ logged_in (browse srv sess reqs).2 = false.
Proof.
  revert srv sess. induction reqs as [|req reqs IH]; intros srv sess Hout Hno; [done|].
  apply Forall_cons in Hno as [Hreq Hno]. simpl.
  destruct (handle_logged_out srv sess req Hout) as [Hsrv Hsess].
  destruct (handle srv sess req) as [[srv1 sess1] resp]. simpl in *. subst srv1.
  apply IH; [|exact Hno].
  destruct (logged_in sess1); [by destruct Hreq; apply Hsess | reflexivity].
Qed.

(** X17. A browser that starts without a login and never presents the
    credentials ends without a login and has changed nothing, whatever
    requests it sends and in whatever order. *)
Theorem no_credentials_no_change (srv : Server) (sess : Session)
    (reqs : list HttpRequest) :
  logged_in sess = false ->
  Forall (fun req => ~ presents_credentials req) reqs ->
  (browse srv sess reqs).1 = srv /\ logged_in (browse srv sess reqs).2 = false.
Proof.
  intros Hout Hno. revert srv sess Hout.
  induction Hno as [|req reqs Hreq _ IH]; intros srv sess Hout; [done|].
  simpl. destruct (handle_logged_out srv sess req Hout) as [Hsrv Hsess].
  destruct (handle srv sess req) as [[srv1 sess1] resp]. simpl in *. subst srv1.
  apply IH. destruct (logged_in sess1); [|reflexivity].
  exfalso. by apply Hreq, Hsess.
Qed.

(** X18. After a GET of /logout the session has no login, whether it had
    one or not, and the process is as before; what the browser sends next
    changes nothing until it presents the credentials. *)
Theorem logout_ends_access (srv : Server) (sess : Session) (req : HttpRequest)
    (reqs : list HttpRequest) :
  req_path req = "/logout" -> req_method req = GET ->
  Forall (fun req => ~ presents_credentials req) reqs ->
  (browse srv sess (req :: reqs)).1 = srv /\
  logged_in (browse srv sess (req :: reqs)).2 = false.
Proof.
  intros Hpath Hm Hno. simpl. unfold handle. rewrite Hpath, Hm. simpl.
  unfold logout, login_required.
  destruct (logged_in sess) eqn:Hin; by apply browse_logged_out.
Qed.

Lemma handle_log_and_counters (srv : Server) (sess : Session) (req : HttpRequest) :
  logs (core (handle srv sess req).1.1) = logs (core srv) /\
  (estadisticas (core (handle srv sess req).1.1) = estadisticas (core srv) \/
   (estadisticas (core (handle srv sess req).1.1) = ∅ /\
    logged_in sess = true /\ req_path req = "/reset_stats")).
Proof.
  revert srv sess req.
  through_views (fun srv sess req (out : Server * Session * Response) =>
                   logs (core out.1.1) = logs (core srv) /\
                   (estadisticas (core out.1.1) = estadisticas (core srv) \/
                    (estadisticas (core out.1.1) = ∅ /\
                     logged_in sess = true /\ req_path req = "/reset_stats")));
    by_cases; simpl; auto.
Qed.

(** X19. No request to the dashboard writes to the activity log, and the
    only one that changes the counters is /reset_stats from a logged-in
    session, which empties them. *)
Theorem dashboard_leaves_log_and_counters (srv : Server) (sess : Session)
    (req : HttpRequest) :
  logs (core (handle srv sess req).1.1) = logs (core srv) /\
  (estadisticas (core (handle srv sess req).1.1) = estadisticas (core srv) \/
   (estadisticas (core (handle srv sess req).1.1) = ∅ /\
    logged_in sess = true /\ req_path req = "/reset_stats")).
Proof.
  revert srv sess req.
  through_views (fun srv sess req (out : Server * Session * Response) =>
                   logs (core out.1.1) = logs (core srv) /\
                   (estadisticas (core out.1.1) = estadisticas (core srv) \/
                    (estadisticas (core out.1.1) = ∅ /\
                     logged_in sess = true /\ req_path req = "/reset_stats")));
    by_cases; simpl.
  all: split; [reflexivity|]; first [by left | right; by repeat split].
Qed.

Lemma boot_persisted (file : option ConfigFile) : persisted (boot file).
Proof.
  unfold persisted. destruct file as [[bloqueos maintenance]|]; simpl;
    repeat split; try done.
  destruct bloqueos; simpl; done.
Qed.

Lemma handle_persisted (srv : Server) (sess : Session) (req : HttpRequest) :
  persisted srv -> persisted (handle srv sess req).1.1.
Proof.
  revert srv sess req.
  through_views (fun srv (_ : Session) (_ : HttpRequest)
                     (out : Server * Session * Response) =>
                   persisted srv -> persisted out.1.1);
    intros Hp; by_cases; simpl; try exact Hp;
    destruct Hp as (H1 & H2 & H3 & H4);
    unfold persisted, store_bloqueos, save_config, boot, load_config, dump; simpl;
    repeat split; auto; try discriminate;
    destruct (has_bloqueos (config srv)); simpl; auto; symmetry; auto.
Qed.

End Dashboard.

(** ** The process as a whole *)

Section Process.

Context {L : Libraries}.

Lemma serve_event_persisted (srv : Server) (ev : Event) :
  persisted srv -> persisted (serve_event srv ev).
Proof.
  destruct ev as [w request handler|sess req]; [|apply handle_persisted].
  intros (H1 & H2 & H3 & H4). unfold persisted. simpl.
  destruct (resolve_keeps_rules (core srv) w request handler) as [-> ->].
  by repeat split.
Qed.

Lemma serve_persisted (evs : list Event) (srv : Server) :
  persisted srv -> persisted (serve srv evs).
Proof.
  revert srv. induction evs as [|ev evs IH]; intros srv Hp; [exact Hp|].
  simpl. apply IH. by apply serve_event_persisted.
Qed.

(** X20. At any moment the configuration file holds the rules and the
    maintenance flag that are in memory: after any mix of queries and
    dashboard requests, starting the process again from the file as it stands
    gives the same rule list and the same flag. *)
Theorem restart_restores_rules (file : option ConfigFile) (evs : list Event) :
  let srv := serve (boot file) evs in
  global_bloqueos (core (boot (disk srv))) = global_bloqueos (core srv) /\
  maintenance_mode (core (boot (disk srv))) = maintenance_mode (core srv).
Proof.
  destruct (serve_persisted evs (boot file) (boot_persisted file)) as (H1 & H2 & _).
  by split.
Qed.

Lemma serve_event_logs_bounded (srv : Server) (ev : Event) :
  length (logs (core srv)) <= LOG_LIMIT ->
  length (logs (core (serve_event srv ev))) <= LOG_LIMIT.
Proof.
  destruct ev as [w request handler|sess req]; simpl.
  - apply resolve_logs_bounded.
  - by rewrite (proj1 (handle_log_and_counters srv sess req)).
Qed.

(** X21. From the start of the process on, through any mix of queries and
    dashboard requests, the activity log holds at most [LOG_LIMIT] entries. *)
Theorem log_bounded_for_good (file : option ConfigFile) (evs : list Event) :
  length (logs (core (serve (boot file) evs))) <= LOG_LIMIT.
Proof.
  assert (H : forall evs srv, length (logs (core srv)) <= LOG_LIMIT ->
                              length (logs (core (serve srv evs))) <= LOG_LIMIT).
  { clear. induction evs as [|ev evs IH]; intros srv Hb; [exact Hb|].
    simpl. apply IH. by apply serve_event_logs_bounded. }
  apply H. destruct file as [[??]|]; simpl; unfold LOG_LIMIT; lia.
Qed.

(** X22. For a series of calls that all return, starting from a log within
    its bound, the log afterwards is the newest [LOG_LIMIT] entries of the old
    log followed by one entry per call in call order, each carrying the
    time stamp, client and query of its call. *)
Theorem log_keeps_newest_in_order (calls : list (World * Request * Handler))
    (st : State) :
  length (logs st) <= LOG_LIMIT ->
  Forall (fun o => exists reply, o = Returns reply) (resolve_all st calls).2 ->
  exists entries,
    Forall2 (fun e c => exists action, e = entry_of c.1.1 c.1.2 c.2 action)
      entries calls /\
    logs (resolve_all st calls).1 = most_recent LOG_LIMIT (logs st ++ entries).
Proof.
  revert st. induction calls as [|[[w request] handler] calls IH]; intros st Hb Hret.
  - exists []. split; [constructor|]. simpl. rewrite app_nil_r.
    symmetry. by apply most_recent_all.
  - simpl in *.
    pose proof (resolve_logs st w request handler) as Hlog.
    pose proof (resolve_logs_bounded st w request handler Hb) as Hb1.
    destruct (resolve st w request handler) as [st1 o]. simpl in *.
    specialize (IH st1 Hb1).
    destruct (resolve_all st1 calls) as [st2 os]. simpl in *.
    apply Forall_cons in Hret as [[reply ->] Hret].
    destruct Hlog as [action Hlog]. destruct (IH Hret) as (entries & Hents & Hlogs).
    exists (entry_of w request handler action :: entries).
    split; [constructor; [by exists action | exact Hents]|].
    rewrite Hlogs, Hlog, log_append_most_recent, most_recent_app.
    by rewrite <- app_assoc.
Qed.

End Process.

(** ** The further properties at sample inputs *)

Lemma disabled_rule_never_matters_witness :
  let with_it := resolve (L:=Concrete.lib) Demo.serving Demo.world
                   (Demo.ask "a.example.") Demo.peer in
  let without := resolve (L:=Concrete.lib)
                   (set_bloqueos Demo.serving (List.tl Demo.bloqueos))
                   Demo.world (Demo.ask "a.example.") Demo.peer in
  with_it.2 = without.2 /\ logs with_it.1 = logs without.1 /\
  estadisticas with_it.1 = estadisticas without.1.
Proof.
  exact (disabled_rule_never_matters (L:=Concrete.lib) Demo.serving Demo.world
           (Demo.ask "a.example.") Demo.peer []
           (flip_enabled (Demo.rule "*.example." "10.0.0.1"))
           (List.tl Demo.bloqueos) eq_refl eq_refl).
Defined.

Lemma upstream_not_consulted_witness :
  resolve (L:=Concrete.lib) Demo.serving
    {| world_ts := world_ts Demo.world; world_now := world_now Demo.world;
       gethostbyname := fun _ => Ok "203.0.113.9" |}
    (Demo.ask "x.ads.example.") Demo.peer
  = resolve (L:=Concrete.lib) Demo.serving Demo.world (Demo.ask "x.ads.example.") Demo.peer.
Proof.
  apply (upstream_not_consulted (L:=Concrete.lib)). right.
  apply Exists_cons_tl, Exists_cons_hd. reflexivity.
Defined.

Lemma refused_after_strip_witness :
  Str.upper (Str.strip " refuſed 　") = "REFUSED" /\
  resolve (L:=Concrete.lib) (core (boot (Some Tour.by_hand))) Demo.world
    (Demo.ask "tracker.net.") Demo.peer
  = ({| maintenance_mode := false;
        global_bloqueos := [Demo.rule "tracker.*" " refuſed 　"];
        logs := [{| ts := "2024-05-17 12:00:00"; client := "192.0.2.7";
                    query := "tracker.net. (A)"; action := "refused @ tracker.*" |}];
        estadisticas := {[ "tracker.*" := 1 ]} |},
     Returns {| Dns.rcode := Dns.REFUSED; Dns.rr := [] |}).
Proof.
  split; [reflexivity|].
  exact (refused_after_strip (L:=Concrete.lib) (core (boot (Some Tour.by_hand)))
           Demo.world (Demo.ask "tracker.net.") Demo.peer []
           (Demo.rule "tracker.*" " refuſed 　") []
           eq_refl eq_refl (List.Forall_nil _) eq_refl eq_refl).
Defined.

Lemma added_rule_yields_to_older_witness :
  let before := resolve (L:=Concrete.lib) Demo.serving Demo.world
                  (Demo.ask "x.ads.example.") Demo.peer in
  let after := resolve (L:=Concrete.lib)
                 (add_block Demo.serving (Demo.form "*.ads.example" "REFUSED"))
                 Demo.world (Demo.ask "x.ads.example.") Demo.peer in
  after.2 = before.2 /\ logs after.1 = logs before.1 /\
  estadisticas after.1 = estadisticas before.1.
Proof.
  apply (added_rule_yields_to_older (L:=Concrete.lib)).
  apply Exists_cons_tl, Exists_cons_hd. reflexivity.
Defined.

Lemma first_hit_after_reset_witness :
  estadisticas
    (resolve (L:=Concrete.lib)
       (reset_stats
          (resolve (L:=Concrete.lib) Demo.serving Demo.world
             (Demo.ask "tracker.net.") Demo.peer).1)
       Demo.world (Demo.ask "x.ads.example.") Demo.peer).1
  = {[ "*.ads.example." := 1 ]}.
Proof.
  assert (Hpre : Forall (fun r => eligible (L:=Concrete.lib) "x.ads.example." Demo.noon r = false)
                   [flip_enabled (Demo.rule "*.example." "10.0.0.1")])
    by (repeat constructor).
  exact (proj1 (first_hit_after_reset (L:=Concrete.lib)
                  (resolve (L:=Concrete.lib) Demo.serving Demo.world
                     (Demo.ask "tracker.net.") Demo.peer).1
                  Demo.world (Demo.ask "x.ads.example.") Demo.peer
                  [flip_enabled (Demo.rule "*.example." "10.0.0.1")]
                  (Demo.rule "*.ads.example." "0.0.0.0")
                  [Demo.rule "tracker.*" "Refused"; Demo.rule "x.ads.example." "REFUSED"]
                  eq_refl eq_refl Hpre eq_refl)).
Defined.

Lemma window_ends_with_first_instant_witness :
  valid_time (Tour.half_past 17 0) /\
  dentro_de_franja "09:00" "17:00" (Tour.half_past 17 0) = false.
Proof.
  assert (Hv : valid_time (Tour.half_past 17 0)) by (unfold valid_time; simpl; lia).
  split; [exact Hv|].
  apply (window_ends_with_first_instant "09:00" "17:00"
           (mk_time 9 0 0 0) (mk_time 17 0 0 0) (Tour.half_past 17 0)
           eq_refl eq_refl eq_refl Hv eq_refl eq_refl).
  discriminate.
Defined.

Lemma default_window_is_not_all_day_witness :
  valid_time (Tour.half_past 23 59) /\
  (time_active (Tour.half_past 23 59)
     {| pattern := "ads.example."; ip := "0.0.0.0"; start := Some "00:00";
        end_ := Some "23:59"; enabled := Some true |} = true
   <-> time_le (Tour.half_past 23 59) (mk_time 23 59 0 0) = true).
Proof.
  assert (Hv : valid_time (Tour.half_past 23 59)) by (unfold valid_time; simpl; lia).
  split; [exact Hv|].
  exact (default_window_is_not_all_day (startup [] false)
           (Demo.form "ads.example" "0.0.0.0") (Tour.half_past 23 59) _
           eq_refl eq_refl Hv eq_refl).
Defined.

Lemma equal_bounds_single_instant_witness :
  Strptime.parse_HM "12:00" = Some Demo.noon /\
  (dentro_de_franja "12:00" "12:00" Demo.noon = true <-> Demo.noon = Demo.noon).
Proof.
  split; [reflexivity|].
  exact (equal_bounds_single_instant "12:00" Demo.noon Demo.noon eq_refl).
Defined.

Lemma remove_after_add_witness :
  remove_block (add_block (startup [] false) (Demo.form " ads.example " "0.0.0.0"))
    (Some "ads.example.")
  = startup [] false.
Proof.
  exact (proj2 (remove_after_add (startup [] false)
                  (Demo.form " ads.example " "0.0.0.0")) (List.Forall_nil _)).
Defined.

Lemma toggle_twice_restores_witness :
  toggle_rule (toggle_rule Demo.serving (Some "tracker.*")) (Some "tracker.*")
  = Demo.serving.
Proof.
  apply (proj2 (toggle_twice_restores (L:=Concrete.lib) Demo.serving (Some "tracker.*"))).
  repeat constructor; by eexists.
Defined.

Lemma toggle_rule_first_only_witness :
  toggle_rule Tour.twins (Some "dup.example.")
  = startup
      [{| pattern := "dup.example."; ip := "192.0.2.1"; start := Some EmptyString;
          end_ := Some EmptyString; enabled := Some false |};
       {| pattern := "dup.example."; ip := "192.0.2.2"; start := Some EmptyString;
          end_ := Some EmptyString; enabled := Some true |}]
      false.
Proof.
  exact (proj2 (toggle_rule_first_only Tour.twins (Some "dup.example.")) []
           (Demo.rule "dup.example." "192.0.2.1")
           [Demo.rule "dup.example." "192.0.2.2"]
           eq_refl (List.Forall_nil _) eq_refl).
Defined.

Lemma logged_out_request_changes_nothing_witness :
  Web.logged_in Tour.guest = false /\
  (Web.handle (boot None) Tour.guest Tour.post_rule).1.1 = boot None.
Proof.
  split; [reflexivity|].
  exact (logged_out_request_changes_nothing (boot None) Tour.guest Tour.post_rule eq_refl).
Defined.

Lemma login_needs_credentials_witness :
  (Web.logged_in (Web.handle (boot None) Tour.guest Tour.sign_in).1.2 = true
   <-> Web.presents_credentials Tour.sign_in) /\
  (Web.logged_in (Web.handle (boot None) Tour.guest Tour.wrong_password).1.2 = true
   <-> Web.presents_credentials Tour.wrong_password).
Proof.
  split.
  - exact (login_needs_credentials (boot None) Tour.guest Tour.sign_in eq_refl).
  - exact (login_needs_credentials (boot None) Tour.guest Tour.wrong_password eq_refl).
Defined.

Lemma no_credentials_no_change_witness :
  (Web.browse (boot None) Tour.guest
     [Tour.post_rule; Tour.wrong_password; Tour.get "/toggle_maintenance" ∅;
      Tour.get "/reset_stats" ∅; Tour.unplug]).1
  = boot None.
Proof.
  refine (proj1 (no_credentials_no_change (boot None) Tour.guest
                   [Tour.post_rule; Tour.wrong_password;
                    Tour.get "/toggle_maintenance" ∅;
                    Tour.get "/reset_stats" ∅; Tour.unplug] eq_refl _)).
  repeat constructor; intros (Hpath & Hm & Hu & Hp); discriminate.
Defined.

Lemma logout_ends_access_witness :
  (Web.browse (boot None) Tour.admin [Tour.get "/logout" ∅; Tour.post_rule]).1
  = boot None.
Proof.
  refine (proj1 (logout_ends_access (boot None) Tour.admin (Tour.get "/logout" ∅)
                   [Tour.post_rule] eq_refl eq_refl _)).
  repeat constructor; intros (Hpath & Hm & Hu & Hp); discriminate.
Defined.

Lemma log_keeps_newest_in_order_witness :
  exists entries,
    Forall2 (fun e c => exists action, e = entry_of c.1.1 c.1.2 c.2 action) entries
      [(Demo.world, Demo.ask "x.ads.example.", Demo.peer);
       (Demo.world, Demo.ask "openai.com.", Demo.peer)] /\
    logs (resolve_all (L:=Concrete.lib) Demo.serving
            [(Demo.world, Demo.ask "x.ads.example.", Demo.peer);
             (Demo.world, Demo.ask "openai.com.", Demo.peer)]).1
    = most_recent LOG_LIMIT (logs Demo.serving ++ entries).
Proof.
  apply (log_keeps_newest_in_order (L:=Concrete.lib)).
  - simpl. unfold LOG_LIMIT. lia.
  - repeat constructor; by eexists.
Defined.

(** A session through the dashboard: sign in, add a rule, see it decide a
    query, then find it again after a restart. *)
Example dashboard_session :
  let '(srv, sess) := Web.browse (boot None) Tour.guest [Tour.sign_in; Tour.post_rule] in
  Web.logged_in sess = true /\
  global_bloqueos (core srv)
  = [{| pattern := "ads.example."; ip := "0.0.0.0"; start := Some "00:00";
        end_ := Some "23:59"; enabled := Some true |}] /\
  core (boot (disk srv)) = startup (global_bloqueos (core srv)) false /\
  (resolve (L:=Concrete.lib) (core srv) Demo.world (Demo.ask "ads.example.") Demo.peer).2
  = Returns
      {| Dns.rcode := Dns.NOERROR;
         Dns.rr := [{| Dns.rname := "ads.example."; Dns.rtype := Dns.QA;
                       Dns.rdata := Dns.A [0; 0; 0; 0]%Z; Dns.ttl := 60 |}] |}.
Proof. vm_compute. repeat split. Qed.

Example downloads_fail :
  (Web.handle (boot None) Tour.admin (Tour.get "/download_logs" ∅)).2
  = Web.ServerError "module 'csv' has no attribute 'writerow'" /\
  (Web.handle (boot None) Tour.admin (Tour.get "/add" ∅)).2 = Web.Abort 405 /\
  (Web.handle (boot None) Tour.admin (Tour.post "/add" ∅)).2 = Web.Abort 400 /\
  (Web.handle (boot None) Tour.admin (Tour.get "/stats" ∅)).2 = Web.Abort 404.
Proof. vm_compute. repeat split. Qed.
